(** * EC2 Capacity Blocks pricing scraper: extraction and normalisation

    A shallow embedding of [src/parser.py] and [src/scraper.py].

    Python [str] values are modelled by [string]: a text is the sequence of
    its UTF-8 bytes, so the classes [\d] and [\s] and [str.strip] are taken
    on their ASCII range (no byte of a multi-byte sequence belongs to them).
    A Python exception is a value [Raise e] of the error monad [result].
    The recursion limit of the interpreter is not modelled. *)

From Stdlib Require Import ZArith List String Ascii Bool Lia.
From Stdlib Require Import Floats.SpecFloat.
From Stdlib Require Import DecimalString.
Import ListNotations.

Open Scope string_scope.
Open Scope list_scope.

(** ** Exceptions and the error monad *)

Module Py.

Inductive exn : Type :=
| KeyError
| TypeError
| AttributeError
| ValueError (msg : string).

Inductive result (A : Type) : Type :=
| Ok (a : A)
| Raise (e : exn).

Arguments Ok {A} a.
Arguments Raise {A} e.

Definition bind {A B : Type} (m : result A) (k : A -> result B) : result B :=
  match m with
  | Ok a => k a
  | Raise e => Raise e
  end.

Definition is_ok {A : Type} (m : result A) : bool :=
  match m with
  | Ok _ => true
  | Raise _ => false
  end.

(** *** The [str] methods the program uses *)

Definition is_digit (c : ascii) : bool :=
  let n := nat_of_ascii c in (48 <=? n)%nat && (n <=? 57)%nat.

(** [str.isspace] on ASCII: tab, line feed, vertical tab, form feed,
    carriage return, the four separators 0x1c..0x1f and the space. *)
Definition is_space (c : ascii) : bool :=
  let n := nat_of_ascii c in
  ((9 <=? n)%nat && (n <=? 13)%nat) || ((28 <=? n)%nat && (n <=? 32)%nat).

Fixpoint startswith (p s : string) : bool :=
  match p with
  | EmptyString => true
  | String a p' =>
      match s with
      | EmptyString => false
      | String b s' => Ascii.eqb a b && startswith p' s'
      end
  end.

(** [needle in hay] for two strings. *)
Fixpoint contains (needle hay : string) : bool :=
  startswith needle hay ||
  match hay with
  | EmptyString => false
  | String _ hay' => contains needle hay'
  end.

Fixpoint lstrip (s : string) : string :=
  match s with
  | EmptyString => EmptyString
  | String c s' => if is_space c then lstrip s' else s
  end.

(** [rstrip]: a character is kept when it is not a space or when something
    is kept after it. *)
Fixpoint rstrip (s : string) : string :=
  match s with
  | EmptyString => EmptyString
  | String c s' =>
      match rstrip s' with
      | EmptyString => if is_space c then EmptyString else String c EmptyString
      | r => String c r
      end
  end.

Definition strip (s : string) : string := rstrip (lstrip s).

(** [s.replace(c, "")] for a one-character [c]. *)
Fixpoint remove_char (c : ascii) (s : string) : string :=
  match s with
  | EmptyString => EmptyString
  | String a s' => if Ascii.eqb a c then remove_char c s' else String a (remove_char c s')
  end.

Fixpoint has_char (c : ascii) (s : string) : bool :=
  match s with
  | EmptyString => false
  | String a s' => Ascii.eqb a c || has_char c s'
  end.

Fixpoint all_chars (p : ascii -> bool) (s : string) : bool :=
  match s with
  | EmptyString => true
  | String a s' => p a && all_chars p s'
  end.


End Py.

Export Py.

Declare Scope py_scope.
Delimit Scope py_scope with py.
Notation "x <- m ;; k" := (bind m (fun x => k))
  (at level 61, m at next level, right associativity) : py_scope.
Notation "' pat <- m ;; k" := (bind m (fun x => let 'pat := x in k))
  (at level 61, pat pattern, m at next level, right associativity) : py_scope.
Open Scope py_scope.

(** ** Binary64 numbers

    A Python [float] is an IEEE 754 binary64 number, here a [spec_float]
    with precision 53 and maximal exponent 1024.  [of_decimal] is the
    correctly rounded (nearest, ties to even) conversion of the decimal
    [m * 10^e] that [float()] and the JSON decoder perform. *)

Module F64.

Definition prec : Z := 53.
Definition emax : Z := 1024.

Definition of_decimal (neg : bool) (m : positive) (e : Z) : spec_float :=
  if (0 <=? e)%Z then
    binary_round prec emax neg (m * Pos.pow 10 (Z.to_pos e)) 0
  else
    let '(q, e', l) :=
      SFdiv_core_binary prec emax (Zpos m) 0 (Zpos (Pos.pow 10 (Z.to_pos (- e)))) 0 in
    binary_round_aux prec emax neg q e' l.

Definition zero : spec_float := S754_zero false.

(** [x == y] on floats. *)
Definition eqb (x y : spec_float) : bool := SFeqb x y.

(** [0.0 < x]. *)
Definition positive_float (x : spec_float) : bool := SFltb zero x.

(** Positive zero, a positive finite number or positive infinity. *)
Definition is_nonneg (x : spec_float) : bool :=
  match x with
  | S754_zero false | S754_infinity false | S754_finite false _ _ => true
  | _ => false
  end.

(** Exact comparison of an [int] with a [float], as [==] does it. *)
Definition eqb_int (z : Z) (x : spec_float) : bool :=
  match x with
  | S754_zero _ => (z =? 0)%Z
  | S754_finite s m e =>
      let v := if s then Zneg m else Zpos m in
      if (0 <=? e)%Z then (z =? v * 2 ^ e)%Z else (z * 2 ^ (- e) =? v)%Z
  | _ => false
  end.

End F64.

(** ** Regular expressions

    The three patterns of [parser.py] are sequences of one-character atoms
    under a quantifier, with capture groups that do not nest.  [match_here]
    is the backtracking matcher of [re]: a greedy quantifier tries the
    longest repetition first, a lazy one the shortest, and the first
    alternative that lets the rest of the pattern match is taken. *)

Module Re.

Inductive cset : Type :=
| CChar (a : ascii)          (* a literal character *)
| CDigit                     (* \d *)
| CSpace                     (* \s *)
| CAny                       (* . under re.DOTALL *)
| CUnion (c1 c2 : cset).     (* [c1c2] *)

Inductive quant : Type :=
| One                        (* x   *)
| Opt                        (* x?  *)
| Star                       (* x*  *)
| Plus                       (* x+  *)
| LazyStar.                  (* x*? *)

Inductive item : Type :=
| Atom (c : cset) (q : quant)
| GOpen                      (* ( *)
| GClose.                    (* ) *)

Definition regex : Type := list item.

Fixpoint cset_match (c : cset) (a : ascii) : bool :=
  match c with
  | CChar b => Ascii.eqb a b
  | CDigit => is_digit a
  | CSpace => is_space a
  | CAny => true
  | CUnion c1 c2 => cset_match c1 a || cset_match c2 a
  end.

(** The literal text [s] as a pattern. *)
Fixpoint lit (s : string) : regex :=
  match s with
  | EmptyString => []
  | String a s' => Atom (CChar a) One :: lit s'
  end.

(** The text between the position [o] where a group opened and the current
    position [s], a suffix of [o]. *)
Definition capture (o s : string) : string :=
  substring 0 (String.length o - String.length s) o.

(** What a successful match yields: the groups in order, and the input
    that follows the match. *)
Definition matched : Type := (list string * string)%type.

Definition orelse (a b : option matched) : option matched :=
  match a with
  | Some r => Some r
  | None => b
  end.

Definition one (c : cset) (k : string -> option matched) (s : string) : option matched :=
  match s with
  | String a s' => if cset_match c a then k s' else None
  | EmptyString => None
  end.

Fixpoint greedy (c : cset) (k : string -> option matched) (s : string) : option matched :=
  match s with
  | String a s' =>
      if cset_match c a then orelse (greedy c k s') (k s) else k s
  | EmptyString => k s
  end.

Fixpoint lazy (c : cset) (k : string -> option matched) (s : string) : option matched :=
  match k s with
  | Some r => Some r
  | None =>
      match s with
      | String a s' => if cset_match c a then lazy c k s' else None
      | EmptyString => None
      end
  end.

Fixpoint match_here (r : regex) (o : string) (caps : list string) (s : string)
  : option matched :=
  match r with
  | [] => Some (caps, s)
  | Atom c One :: r' => one c (match_here r' o caps) s
  | Atom c Opt :: r' => orelse (one c (match_here r' o caps) s) (match_here r' o caps s)
  | Atom c Star :: r' => greedy c (match_here r' o caps) s
  | Atom c Plus :: r' => one c (greedy c (match_here r' o caps)) s
  | Atom c LazyStar :: r' => lazy c (match_here r' o caps) s
  | GOpen :: r' => match_here r' s caps s
  | GClose :: r' => match_here r' o (caps ++ [capture o s]) s
  end.

Definition match_at (r : regex) (s : string) : option matched :=
  match_here r s [] s.

(** [re.search]: the match at the leftmost position that has one. *)
Fixpoint search (r : regex) (s : string) : option matched :=
  match match_at r s with
  | Some m => Some m
  | None =>
      match s with
      | String _ s' => search r s'
      | EmptyString => None
      end
  end.

(** [re.findall]: the groups of the successive non-overlapping matches,
    scanning from the left.  [skip] counts the characters of the last match
    still to step over. *)
Fixpoint findall_from (r : regex) (skip : nat) (s : string) {struct s}
  : list (list string) :=
  match skip with
  | S k =>
      match s with
      | String _ s' => findall_from r k s'
      | EmptyString => []
      end
  | O =>
      match match_at r s with
      | Some (caps, rest) =>
          caps ::
          match s with
          | String _ s' =>
              findall_from r (Nat.pred (String.length s - String.length rest)) s'
          | EmptyString => []
          end
      | None =>
          match s with
          | String _ s' => findall_from r 0 s'
          | EmptyString => []
          end
      end
  end.

Definition findall (r : regex) (s : string) : list (list string) :=
  findall_from r 0 s.



(** [m.group(i)], groups counted from 1. *)
Definition group (caps : list string) (i : nat) : string :=
  nth (Nat.pred i) caps EmptyString.

End Re.

(** ** Python values and the JSON decoder

    [value] is what [json.loads] can return.  A [dict] keeps its keys in
    insertion order; a later duplicate of a key replaces the value in place. *)

Module Json.

#[warnings="-register-all"]
Inductive value : Type :=
| VNone
| VBool (b : bool)
| VInt (z : Z)
| VFloat (f : spec_float)
| VStr (s : string)
| VList (l : list value)
| VDict (d : list (string * value)).

(** [bool(v)]. *)
Definition truthy (v : value) : bool :=
  match v with
  | VNone => false
  | VBool b => b
  | VInt z => negb (z =? 0)%Z
  | VFloat f => negb (F64.eqb f F64.zero)
  | VStr s => negb (s =? "")
  | VList l => match l with [] => false | _ => true end
  | VDict d => match d with [] => false | _ => true end
  end.

(** Lists and dicts cannot be dict keys. *)
Definition hashable (v : value) : bool :=
  match v with
  | VList _ | VDict _ => false
  | _ => true
  end.

Definition as_int (v : value) : option Z :=
  match v with
  | VBool b => Some (if b then 1 else 0)%Z
  | VInt z => Some z
  | _ => None
  end.

(** Equality of dict keys: [True == 1 == 1.0], a string only equals the
    same string, [None] only itself.  The decoder returns one and the same
    [NaN] object for every [NaN] literal, which a dict finds by identity. *)
Definition key_eqb (a b : value) : bool :=
  match a, b with
  | VNone, VNone => true
  | VStr s, VStr t => (s =? t)
  | VFloat x, VFloat y =>
      match x, y with
      | S754_nan, S754_nan => true
      | _, _ => F64.eqb x y
      end
  | VFloat x, _ =>
      match as_int b with Some z => F64.eqb_int z x | None => false end
  | _, VFloat y =>
      match as_int a with Some z => F64.eqb_int z y | None => false end
  | _, _ =>
      match as_int a, as_int b with
      | Some x, Some y => (x =? y)%Z
      | _, _ => false
      end
  end.

(** [d.get(k, default)] on a dict with string keys. *)
Fixpoint lookup {A : Type} (k : string) (d : list (string * A)) : option A :=
  match d with
  | [] => None
  | (k', v) :: d' => if (k =? k') then Some v else lookup k d'
  end.

Definition get (d : list (string * value)) (k : string) (default : value) : value :=
  match lookup k d with
  | Some v => v
  | None => default
  end.

(** [d[k] = v]. *)
Fixpoint dict_set {A : Type} (k : string) (v : A) (d : list (string * A)) : list (string * A) :=
  match d with
  | [] => [(k, v)]
  | (k', v') :: d' => if (k =? k') then (k', v) :: d' else (k', v') :: dict_set k v d'
  end.

(** [v.get(k, default)]: only a dict has the method. *)
Definition dict_get (v : value) (k : string) (default : value) : result value :=
  match v with
  | VDict d => Ok (get d k default)
  | _ => Raise AttributeError
  end.

(** [v[k]] with a string [k]. *)
Definition subscript (v : value) (k : string) : result value :=
  match v with
  | VDict d =>
      match lookup k d with
      | Some x => Ok x
      | None => Raise KeyError
      end
  | _ => Raise TypeError
  end.

Fixpoint chars (s : string) : list value :=
  match s with
  | EmptyString => []
  | String a s' => VStr (String a EmptyString) :: chars s'
  end.

(** The elements a [for] loop over [v] visits: those of a list, the keys of
    a dict, the characters of a string. *)
Definition iter (v : value) : result (list value) :=
  match v with
  | VList l => Ok l
  | VDict d => Ok (map (fun kv => VStr (fst kv)) d)
  | VStr s => Ok (chars s)
  | _ => Raise TypeError
  end.

(** [needle in v] for a string [needle]. *)
Definition py_in (needle : string) (v : value) : result bool :=
  match v with
  | VStr s => Ok (contains needle s)
  | VList l => Ok (existsb (key_eqb (VStr needle)) l)
  | VDict d => Ok (match lookup needle d with Some _ => true | None => false end)
  | _ => Raise TypeError
  end.

(** *** The decoder *)

Definition dq : ascii := "034"%char.
Definition backslash : ascii := "092"%char.

Definition is_json_ws (c : ascii) : bool :=
  let n := nat_of_ascii c in
  (n =? 32)%nat || (n =? 9)%nat || (n =? 10)%nat || (n =? 13)%nat.

Fixpoint skip_ws (s : string) : string :=
  match s with
  | String c s' => if is_json_ws c then skip_ws s' else s
  | EmptyString => EmptyString
  end.

Definition hex_val (c : ascii) : option N :=
  let n := N_of_ascii c in
  if (48 <=? n)%N && (n <=? 57)%N then Some (n - 48)%N
  else if (97 <=? n)%N && (n <=? 102)%N then Some (n - 87)%N
  else if (65 <=? n)%N && (n <=? 70)%N then Some (n - 55)%N
  else None.

Definition hex4 (a b c d : ascii) : option N :=
  match hex_val a, hex_val b, hex_val c, hex_val d with
  | Some x, Some y, Some z, Some w => Some (((x * 16 + y) * 16 + z) * 16 + w)%N
  | _, _, _, _ => None
  end.

(** A string literal is read as a sequence of units: a character, or the
    16-bit number of a [\uXXXX] escape. *)
Inductive unit16 : Type :=
| Raw (a : ascii)
| Esc (n : N).

Definition simple_escape (e : ascii) : option ascii :=
  let n := nat_of_ascii e in
  if (n =? 34)%nat then Some dq                      (* quote *)
  else if (n =? 92)%nat then Some backslash          (* backslash *)
  else if (n =? 47)%nat then Some "/"%char
  else if (n =? 98)%nat then Some "008"%char         (* \b *)
  else if (n =? 102)%nat then Some "012"%char        (* \f *)
  else if (n =? 110)%nat then Some "010"%char        (* \n *)
  else if (n =? 114)%nat then Some "013"%char        (* \r *)
  else if (n =? 116)%nat then Some "009"%char        (* \t *)
  else None.

Definition cons_unit (u : unit16) (r : option (list unit16 * string))
  : option (list unit16 * string) :=
  match r with
  | Some (us, rest) => Some (u :: us, rest)
  | None => None
  end.

(** [scanstring], entered after the opening quote (strict mode: a raw
    control character ends the decoding with an error). *)
Fixpoint scanstring (s : string) : option (list unit16 * string) :=
  match s with
  | EmptyString => None
  | String c rest =>
      if Ascii.eqb c dq then Some ([], rest)
      else if Ascii.eqb c backslash then
        match rest with
        | EmptyString => None
        | String e rest1 =>
            if Ascii.eqb e "u"%char then
              match rest1 with
              | String h1 (String h2 (String h3 (String h4 rest2))) =>
                  match hex4 h1 h2 h3 h4 with
                  | Some n => cons_unit (Esc n) (scanstring rest2)
                  | None => None
                  end
              | _ => None
              end
            else
              match simple_escape e with
              | Some a => cons_unit (Raw a) (scanstring rest1)
              | None => None
              end
        end
      else if (nat_of_ascii c <? 32)%nat then None
      else cons_unit (Raw c) (scanstring rest)
  end.

Definition byte (n : N) : ascii := ascii_of_N n.

(** UTF-8 of a code point (a lone surrogate is written as three bytes). *)
Definition utf8 (n : N) : string :=
  if (n <? 128)%N then String (byte n) EmptyString
  else if (n <? 2048)%N then
    String (byte (192 + n / 64)) (String (byte (128 + n mod 64)) EmptyString)
  else if (n <? 65536)%N then
    String (byte (224 + n / 4096))
      (String (byte (128 + (n / 64) mod 64)) (String (byte (128 + n mod 64)) EmptyString))
  else
    String (byte (240 + n / 262144))
      (String (byte (128 + (n / 4096) mod 64))
         (String (byte (128 + (n / 64) mod 64)) (String (byte (128 + n mod 64)) EmptyString))).

Definition is_high (n : N) : bool := (55296 <=? n)%N && (n <=? 56319)%N.
Definition is_low (n : N) : bool := (56320 <=? n)%N && (n <=? 57343)%N.

(** A high surrogate escape directly followed by a low one is one code
    point. *)
Fixpoint decode_units (us : list unit16) : string :=
  match us with
  | [] => EmptyString
  | Raw a :: us' => String a (decode_units us')
  | Esc n :: us' =>
      match us' with
      | Esc m :: us'' =>
          if is_high n && is_low m
          then utf8 (65536 + (n - 55296) * 1024 + (m - 56320)) ++ decode_units us''
          else utf8 n ++ decode_units us'
      | _ => utf8 n ++ decode_units us'
      end
  end.

Fixpoint span_digits (s : string) : string * string :=
  match s with
  | String c s' =>
      if is_digit c then let (d, r) := span_digits s' in (String c d, r) else (EmptyString, s)
  | EmptyString => (EmptyString, EmptyString)
  end.

Fixpoint digits_value (acc : Z) (s : string) : Z :=
  match s with
  | String c s' => digits_value (10 * acc + (Z.of_nat (nat_of_ascii c) - 48)) s'
  | EmptyString => acc
  end.

(** The decimal [m * 10^e] as a float. *)
Definition decimal_float (neg : bool) (m e : Z) : spec_float :=
  match m with
  | Zpos p => F64.of_decimal neg p e
  | _ => S754_zero neg
  end.

(** The integer part of a number: [0], or a digit [1-9] and more digits. *)
Definition scan_int (s : string) : option (string * string) :=
  match s with
  | String c s' =>
      if Ascii.eqb c "0"%char then Some ("0", s')
      else if is_digit c then Some (span_digits s)
      else None
  | EmptyString => None
  end.

(** The fraction: a point and at least one digit, or nothing. *)
Definition scan_frac (s : string) : option string * string :=
  match s with
  | String c s' =>
      if Ascii.eqb c "."%char then
        match span_digits s' with
        | (EmptyString, _) => (None, s)
        | (d, r) => (Some d, r)
        end
      else (None, s)
  | EmptyString => (None, s)
  end.

(** The exponent: [e] or [E], an optional sign and at least one digit, or
    nothing. *)
Definition scan_exp (s : string) : option Z * string :=
  match s with
  | String c s' =>
      if Ascii.eqb c "e"%char || Ascii.eqb c "E"%char then
        let '(neg, s'') :=
          match s' with
          | String g t =>
              if Ascii.eqb g "-"%char then (true, t)
              else if Ascii.eqb g "+"%char then (false, t)
              else (false, s')
          | EmptyString => (false, s')
          end in
        match span_digits s'' with
        | (EmptyString, _) => (None, s)
        | (d, r) => (Some (if neg then - digits_value 0 d else digits_value 0 d)%Z, r)
        end
      else (None, s)
  | EmptyString => (None, s)
  end.

(** What a scan yields: a value and the text after it, a syntax error (the
    [JSONDecodeError] of the decoder), or an [int] literal with more digits
    than [int()] converts, whose [ValueError] is not a [JSONDecodeError]. *)
Inductive scan : Type :=
| Found (v : value) (rest : string)
| NoValue
| TooLong (digits : nat).

(** [sys.int_info.default_max_str_digits] *)
Definition MAX_STR_DIGITS : nat := 4300.

(** A number is an [int] unless it has a fraction or an exponent. *)
Definition scan_number (s : string) : scan :=
  let '(neg, s1) :=
    match s with
    | String c s' => if Ascii.eqb c "-"%char then (true, s') else (false, s)
    | EmptyString => (false, s)
    end in
  match scan_int s1 with
  | None => NoValue
  | Some (ip, s2) =>
      let '(fp, s3) := scan_frac s2 in
      let '(ex, s4) := scan_exp s3 in
      match fp, ex with
      | None, None =>
          if (MAX_STR_DIGITS <? String.length ip)%nat then TooLong (String.length ip)
          else Found (VInt (if neg then - digits_value 0 ip else digits_value 0 ip)%Z) s4
      | _, _ =>
          let f := match fp with Some d => d | None => EmptyString end in
          let e := match ex with Some z => z | None => 0%Z end in
          Found (VFloat (decimal_float neg (digits_value 0 (ip ++ f)%string)
                           (e - Z.of_nat (String.length f)))) s4
      end
  end.

Definition drop (n : nat) (s : string) : string :=
  substring n (String.length s - n) s.

Definition keyword (w : string) (v : value) (s : string) : option (value * string) :=
  if startswith w s then Some (v, drop (String.length w) s) else None.

Definition first_some {A : Type} (a b : option A) : option A :=
  match a with
  | Some x => Some x
  | None => b
  end.

Definition keywords (s : string) : option (value * string) :=
  first_some (keyword "null" VNone s)
 (first_some (keyword "true" (VBool true) s)
 (first_some (keyword "false" (VBool false) s)
 (first_some (keyword "NaN" (VFloat S754_nan) s)
 (first_some (keyword "Infinity" (VFloat (S754_infinity false)) s)
             (keyword "-Infinity" (VFloat (S754_infinity true)) s))))).

(** [scan_once] and the loops over the members of an object and the
    elements of an array.  Each call spends one unit of [fuel]; the decoder
    is taken with no bound on the nesting. *)
Fixpoint scan_once (fuel : nat) (s : string) {struct fuel} : scan :=
  match fuel with
  | O => NoValue
  | S fuel' =>
      match s with
      | EmptyString => NoValue
      | String c rest =>
          if Ascii.eqb c dq then
            match scanstring rest with
            | Some (us, r) => Found (VStr (decode_units us)) r
            | None => NoValue
            end
          else if Ascii.eqb c "{"%char then
            match skip_ws rest with
            | String c1 r1 =>
                if Ascii.eqb c1 "}"%char then Found (VDict []) r1
                else members fuel' [] (skip_ws rest)
            | EmptyString => NoValue
            end
          else if Ascii.eqb c "["%char then
            match skip_ws rest with
            | String c1 r1 =>
                if Ascii.eqb c1 "]"%char then Found (VList []) r1
                else elements fuel' [] (skip_ws rest)
            | EmptyString => NoValue
            end
          else
            match keywords s with
            | Some (v, r) => Found v r
            | None => scan_number s
            end
      end
  end

with members (fuel : nat) (d : list (string * value)) (s : string) {struct fuel}
  : scan :=
  match fuel with
  | O => NoValue
  | S fuel' =>
      match s with
      | String c rest =>
          if Ascii.eqb c dq then
            match scanstring rest with
            | Some (us, r1) =>
                match skip_ws r1 with
                | String c2 r2 =>
                    if Ascii.eqb c2 ":"%char then
                      match scan_once fuel' (skip_ws r2) with
                      | Found v r3 =>
                          let d' := dict_set (decode_units us) v d in
                          match skip_ws r3 with
                          | String c4 r4 =>
                              if Ascii.eqb c4 "}"%char then Found (VDict d') r4
                              else if Ascii.eqb c4 ","%char then members fuel' d' (skip_ws r4)
                              else NoValue
                          | EmptyString => NoValue
                          end
                      | NoValue => NoValue
                      | TooLong n => TooLong n
                      end
                    else NoValue
                | EmptyString => NoValue
                end
            | None => NoValue
            end
          else NoValue
      | EmptyString => NoValue
      end
  end

with elements (fuel : nat) (acc : list value) (s : string) {struct fuel}
  : scan :=
  match fuel with
  | O => NoValue
  | S fuel' =>
      match scan_once fuel' s with
      | Found v r1 =>
          match skip_ws r1 with
          | String c2 r2 =>
              if Ascii.eqb c2 "]"%char then Found (VList (acc ++ [v])) r2
              else if Ascii.eqb c2 ","%char then elements fuel' (acc ++ [v]) (skip_ws r2)
              else NoValue
          | EmptyString => NoValue
          end
      | NoValue => NoValue
      | TooLong n => TooLong n
      end
  end.

Definition int_limit_error (n : nat) : exn :=
  ValueError
    ("Exceeds the limit (4300 digits) for integer string conversion: value has "
     ++ NilEmpty.string_of_uint (Nat.to_uint n)
     ++ " digits; use sys.set_int_max_str_digits() to increase the limit")%string.

(** [json.loads] of a string.  [Ok None] stands for [JSONDecodeError], the
    one exception that the callers catch.  Leading and trailing white space
    is allowed, anything else after the value is an error. *)
Definition loads (s : string) : result (option value) :=
  match scan_once (2 * String.length s + 2) (skip_ws s) with
  | Found v rest =>
      match skip_ws rest with
      | EmptyString => Ok (Some v)
      | _ => Ok None
      end
  | NoValue => Ok None
  | TooLong n => Raise (int_limit_error n)
  end.

End Json.

(** ** models.py *)

Module Models.

Import Json.

Record PricingEntry : Type := {
  region : string;
  region_code : string;
  hourly_rate_usd : spec_float;
  accelerator_hourly_rate_usd : spec_float
}.

Record InstanceTypePricing : Type := {
  instance_family : string;
  accelerator_type : string;
  accelerator_count : Z;
  pricing : list PricingEntry
}.

Record PricingMetadata : Type := {
  last_updated : string;
  source_url : string;
  version : string
}.

Record PricingData : Type := {
  metadata : PricingMetadata;
  instance_types : list (value * InstanceTypePricing)
}.

(** Every entry of the list has an hourly rate above zero. *)
Definition all_positive (es : list PricingEntry) : Prop :=
  Forall (fun e => F64.positive_float (hourly_rate_usd e) = true) es.

End Models.

(** ** parser.py *)

Module Parser.

Import Re Json Models.

(** [html.unescape] and [BeautifulSoup(text, "html.parser").get_text()] are
    library code.  They enter as an interface with the two facts used about
    them: a text without [&] has no character reference to decode, and a
    text with neither [&] nor [<] has no markup, so that its text content is
    the text itself up to surrounding white space. *)
Class HtmlText : Type := {
  unescape : string -> string;
  get_text : string -> string;
  unescape_plain :
    forall s, has_char "&" s = false -> unescape s = s;
  get_text_plain :
    forall s, has_char "&" s = false -> has_char "<" s = false ->
              strip (get_text s) = strip s
}.

Definition REGION_NAME_TO_CODE : list (string * string) :=
  [ ("US East (N. Virginia)", "us-east-1");
    ("US East (Ohio)", "us-east-2");
    ("US West (N. California)", "us-west-1");
    ("US West (Oregon)", "us-west-2");
    ("Africa (Cape Town)", "af-south-1");
    ("Asia Pacific (Hong Kong)", "ap-east-1");
    ("Asia Pacific (Hyderabad)", "ap-south-2");
    ("Asia Pacific (Jakarta)", "ap-southeast-3");
    ("Asia Pacific (Melbourne)", "ap-southeast-4");
    ("Asia Pacific (Mumbai)", "ap-south-1");
    ("Asia Pacific (Osaka)", "ap-northeast-3");
    ("Asia Pacific (Seoul)", "ap-northeast-2");
    ("Asia Pacific (Singapore)", "ap-southeast-1");
    ("Asia Pacific (Sydney)", "ap-southeast-2");
    ("Asia Pacific (Tokyo)", "ap-northeast-1");
    ("Canada (Central)", "ca-central-1");
    ("Canada West (Calgary)", "ca-west-1");
    ("Europe (Frankfurt)", "eu-central-1");
    ("Europe (Ireland)", "eu-west-1");
    ("Europe (London)", "eu-west-2");
    ("Europe (Milan)", "eu-south-1");
    ("Europe (Paris)", "eu-west-3");
    ("Europe (Spain)", "eu-south-2");
    ("Europe (Stockholm)", "eu-north-1");
    ("Europe (Zurich)", "eu-central-2");
    ("Israel (Tel Aviv)", "il-central-1");
    ("Middle East (Bahrain)", "me-south-1");
    ("Middle East (UAE)", "me-central-1");
    ("South America (São Paulo)", "sa-east-1");
    ("South America (Sao Paulo)", "sa-east-1");
    (* Alternate naming conventions *)
    ("Australia (Sydney)", "ap-southeast-2");
    ("Australia (Melbourne)", "ap-southeast-4");
    (* Local Zones *)
    ("US West (Dallas Local Zone)", "us-west-2-dal-1a");
    (("Dallas Local Zone" ++ String "010"%char "(US East N. Virginia)")%string,
     "us-east-1-dfw-2a")
  ].

Record info : Type := {
  family : string;
  accelerator : string;
  count : Z
}.

Definition INSTANCE_TYPE_INFO : list (string * info) :=
  [ (* P6e (UltraServer) - GB200 *)
    ("u-p6e-gb200x72", {| family := "P6e"; accelerator := "GB200"; count := 72 |});
    ("u-p6e-gb200x36", {| family := "P6e"; accelerator := "GB200"; count := 36 |});
    (* P6-B300 *)
    ("p6-b300.48xlarge", {| family := "P6-B300"; accelerator := "B300"; count := 8 |});
    (* P6-B200 *)
    ("p6-b200.48xlarge", {| family := "P6-B200"; accelerator := "B200"; count := 8 |});
    (* P5 *)
    ("p5.48xlarge", {| family := "P5"; accelerator := "H100"; count := 8 |});
    ("p5.4xlarge", {| family := "P5"; accelerator := "H100"; count := 1 |});
    (* P5e *)
    ("p5e.48xlarge", {| family := "P5e"; accelerator := "H200"; count := 8 |});
    (* P5en *)
    ("p5en.48xlarge", {| family := "P5en"; accelerator := "H200"; count := 8 |});
    (* P4d *)
    ("p4d.24xlarge", {| family := "P4d"; accelerator := "A100"; count := 8 |});
    ("p4de.24xlarge", {| family := "P4de"; accelerator := "A100"; count := 8 |});
    (* Trainium *)
    ("trn1.32xlarge", {| family := "Trn1"; accelerator := "Trainium"; count := 16 |});
    ("trn2.3xlarge", {| family := "Trn2"; accelerator := "Trainium2"; count := 1 |});
    ("trn2.48xlarge", {| family := "Trn2"; accelerator := "Trainium2"; count := 16 |})
  ].

(** A row of [extract_json_data]: a dict with the keys [instance_type],
    [region], [price] and [heading]. *)
Definition row : Type := list (string * value).

(** A [for] loop whose body may raise: the state after the last element,
    or the first exception. *)
Fixpoint for_each {A S : Type} (body : S -> A -> result S) (l : list A) (s : S)
  : result S :=
  match l with
  | [] => Ok s
  | x :: l' => s' <- body s x ;; for_each body l' s'
  end.

(** Dicts whose keys are arbitrary hashable values. *)
Fixpoint vdict_get {A : Type} (k : value) (d : list (value * A)) : option A :=
  match d with
  | [] => None
  | (k', v) :: d' => if key_eqb k' k then Some v else vdict_get k d'
  end.

Fixpoint vdict_set {A : Type} (k : value) (v : A) (d : list (value * A))
  : list (value * A) :=
  match d with
  | [] => [(k, v)]
  | (k', v') :: d' =>
      if key_eqb k' k then (k', v) :: d' else (k', v') :: vdict_set k v d'
  end.

(** The opening tag, written with [dq] for the double quote, and the
    pattern: the opening tag, a lazy group of any characters (DOTALL), and
    the closing tag. *)
Definition OPEN_TAG : string :=
  "<script type=" ++ String dq ("application/json" ++ String dq ">").

Definition script_pattern : regex :=
  lit OPEN_TAG ++ [GOpen; Atom CAny LazyStar; GClose] ++ lit "</script>".

(** [json.loads(v)]: a [TypeError] unless [v] is a string; [Ok None] is a
    [JSONDecodeError], which both callers catch. *)
Definition json_loads (v : value) : result (option value) :=
  match v with
  | VStr s => loads s
  | _ => Raise TypeError
  end.

(** One step of [{row["id"]: row.get("label", "") for row in row_definitions}]. *)
Definition add_label (row_labels : list (value * value)) (r : value)
  : result (list (value * value)) :=
  k <- subscript r "id" ;;
  v <- dict_get r "label" (VStr "") ;;
  if hashable k then Ok (vdict_set k v row_labels) else Raise TypeError.

(** The body of [for table_item in table_items]. *)
Definition table_item_row (row_labels : list (value * value)) (heading : value)
  (all_rows : list row) (table_item : value) : result (list row) :=
  row_id <- dict_get table_item "idProperty" (VStr "") ;;
  instance_type <-
    (if hashable row_id
     then Ok (match vdict_get row_id row_labels with Some l => l | None => VStr "" end)
     else Raise TypeError) ;;
  region <- dict_get table_item "2" (VStr "") ;;
  price <- dict_get table_item "3" (VStr "") ;;
  if truthy instance_type && truthy region && truthy price then
    Ok (all_rows ++ [[("instance_type", instance_type);
                      ("region", region);
                      ("price", price);
                      ("heading", heading)]])
  else Ok all_rows.

(** What follows the second [json.loads] in the body of [for item in items]. *)
Definition table_rows (all_rows : list row) (table_data : value) : result (list row) :=
  heading <- dict_get table_data "heading" (VStr "") ;;
  is_pricing <- py_in "Pricing" heading ;;
  if negb is_pricing then Ok all_rows
  else
    table <- dict_get table_data "table" (VDict []) ;;
    row_definitions <- dict_get table "rowDefinitions" (VList []) ;;
    table_items <- dict_get table "items" (VList []) ;;
    defs <- iter row_definitions ;;
    row_labels <- for_each add_label defs [] ;;
    its <- iter table_items ;;
    for_each (table_item_row row_labels heading) its all_rows.

(** The body of [for item in items]. *)
Definition item_rows (all_rows : list row) (item : value) : result (list row) :=
  fields <- dict_get item "fields" (VDict []) ;;
  json_data_str <- dict_get fields "jsonData" (VStr "") ;;
  if negb (truthy json_data_str) then Ok all_rows
  else
    decoded <- json_loads json_data_str ;;
    match decoded with
    | None => Ok all_rows
    | Some table_data => table_rows all_rows table_data
    end.

(** The body of [for script_content in script_matches]. *)
Definition script_rows (all_rows : list row) (script_content : string)
  : result (list row) :=
  decoded <- loads script_content ;;
  match decoded with
  | None => Ok all_rows
  | Some outer_data =>
      data <- dict_get outer_data "data" (VDict []) ;;
      items <- dict_get data "items" (VList []) ;;
      its <- iter items ;;
      for_each item_rows its all_rows
  end.

Definition script_matches (html : string) : list string :=
  map (fun caps => group caps 1) (findall script_pattern html).

Definition extract_json_data (html : string) : result (list row) :=
  for_each script_rows (script_matches html) [].

Definition float_error (s : string) : exn :=
  ValueError ("could not convert string to float: '" ++ s ++ "'")%string.


(** [float(s)] on [float_domain]: it raises [ValueError] when the text has
    no digit. *)
Definition py_float (s : string) : result spec_float :=
  let '(ip, r) := span_digits s in
  let fp :=
    match r with
    | EmptyString => Some EmptyString
    | String c r' =>
        if Ascii.eqb c "."%char && all_chars is_digit r' then Some r' else None
    end in
  match fp with
  | Some f =>
      if (ip ++ f =? "")%string then Raise (float_error s)
      else Ok (decimal_float false (digits_value 0 (ip ++ f)%string)
                 (- Z.of_nat (String.length f)))
  | None => Raise (float_error s)
  end.

(** The group of both price patterns: one or more of [\d,], an optional
    point, any number of [\d]. *)
Definition amount : regex :=
  [GOpen; Atom (CUnion CDigit (CChar ",")) Plus; Atom (CChar ".") Opt;
   Atom CDigit Star; GClose].

(** The dual form: an optional dollar sign, the amount, [\s*USD\s*], an
    opening parenthesis, an optional dollar sign, the amount, [\s*USD] and
    the closing parenthesis. *)
Definition pattern : regex :=
  [Atom (CChar "$") Opt] ++ amount ++ [Atom CSpace Star] ++ lit "USD" ++
  [Atom CSpace Star; Atom (CChar "(") One; Atom (CChar "$") Opt] ++ amount ++
  [Atom CSpace Star] ++ lit "USD" ++ [Atom (CChar ")") One].

(** The single form: an optional dollar sign, the amount, [\s*USD]. *)
Definition single_pattern : regex :=
  [Atom (CChar "$") Opt] ++ amount ++ [Atom CSpace Star] ++ lit "USD".

(** Lines 155-168 of [parse_price_string], on the cleaned text. *)
Definition match_price (price_str : string) : result (spec_float * spec_float) :=
  match search pattern price_str with
  | Some (caps, _) =>
      hourly <- py_float (remove_char "," (group caps 1)) ;;
      per_acc <- py_float (remove_char "," (group caps 2)) ;;
      Ok (hourly, per_acc)
  | None =>
      match search single_pattern price_str with
      | Some (caps, _) =>
          hourly <- py_float (remove_char "," (group caps 1)) ;;
          Ok (hourly, F64.zero)
      | None => Ok (F64.zero, F64.zero)
      end
  end.

Definition _infer_instance_info (instance_type : value) : result (string * string * Z) :=
  match instance_type with
  | VStr s =>
      if startswith "p5en" s then Ok ("P5en", "H200", 8%Z)
      else if startswith "p5e" s then Ok ("P5e", "H200", 8%Z)
      else if startswith "p5" s then
        let count := if contains "48xlarge" s then 8%Z else 1%Z in
        Ok ("P5", "H100", count)
      else if startswith "p6-b300" s then Ok ("P6-B300", "B300", 8%Z)
      else if startswith "p6-b200" s then Ok ("P6-B200", "B200", 8%Z)
      else if startswith "u-p6e" s then
        if contains "x72" s then Ok ("P6e", "GB200", 72%Z)
        else if contains "x36" s then Ok ("P6e", "GB200", 36%Z)
        else Ok ("P6e", "GB200", 0%Z)
      else if startswith "p4de" s then Ok ("P4de", "A100", 8%Z)
      else if startswith "p4d" s then Ok ("P4d", "A100", 8%Z)
      else if startswith "trn2" s then
        let count := if contains "48xlarge" s then 16%Z else 1%Z in
        Ok ("Trn2", "Trainium2", count)
      else if startswith "trn1" s then Ok ("Trn1", "Trainium", 16%Z)
      else Ok ("Unknown", "Unknown", 0%Z)
  | _ => Raise AttributeError
  end.

(** The prefixes that [_infer_instance_info] tests, in its order. *)
Definition rule_prefixes : list string :=
  ["p5en"; "p5e"; "p5"; "p6-b300"; "p6-b200"; "u-p6e"; "p4de"; "p4d"; "trn2"; "trn1"].

Definition no_prefix_rule (s : string) : bool :=
  forallb (fun p => negb (startswith p s)) rule_prefixes.

(** Lines 210-216 of [parse_pricing_data]: the table first, the inference
    when the table gives no family. *)
Definition instance_info (instance_type : value) : result (string * string * Z) :=
  let i :=
    match instance_type with
    | VStr s => lookup s INSTANCE_TYPE_INFO
    | _ => None
    end in
  let family := match i with Some x => family x | None => "Unknown" end in
  let accelerator := match i with Some x => accelerator x | None => "Unknown" end in
  let count := match i with Some x => count x | None => 0%Z end in
  if (family =? "Unknown") then _infer_instance_info instance_type
  else Ok (family, accelerator, count).

(** Lines 192-195 of [parse_pricing_data]. *)
Definition region_code_of (region : string) : string :=
  let region_code :=
    match lookup region REGION_NAME_TO_CODE with Some c => c | None => "" end in
  if (region_code =? "") then
    let region_normalized := strip region in
    match lookup region_normalized REGION_NAME_TO_CODE with
    | Some c => c
    | None => "unknown"
    end
  else region_code.

(** [instance_pricing[instance_type].append(entry)], after the key was
    created with an empty list when absent. *)
Fixpoint append_entry (k : value) (e : PricingEntry) (d : list (value * list PricingEntry))
  : list (value * list PricingEntry) :=
  match d with
  | [] => [(k, [e])]
  | (k', es) :: d' =>
      if key_eqb k' k then (k', es ++ [e]) :: d' else (k', es) :: append_entry k e d'
  end.

(** The body of the second loop of [parse_pricing_data]. *)
Definition add_instance (acc : list (value * InstanceTypePricing))
  (kv : value * list PricingEntry) : result (list (value * InstanceTypePricing)) :=
  let '(instance_type, entries) := kv in
  '(family, accelerator, count) <- instance_info instance_type ;;
  Ok (vdict_set instance_type
        {| instance_family := family;
           accelerator_type := accelerator;
           accelerator_count := count;
           pricing := entries |} acc).

Section WithHtmlText.

Context {html_text : HtmlText}.

(** A text that is not a string and not empty makes [unescape] or the HTML
    parser raise; the exception is recorded as a [TypeError]. *)
Definition clean_html (text : value) : result string :=
  if negb (truthy text) then Ok ""
  else
    match text with
    | VStr s => Ok (strip (get_text (unescape s)))
    | _ => Raise TypeError
    end.

Definition parse_price_string (price_str : value) : result (spec_float * spec_float) :=
  price_str <- clean_html price_str ;;
  match_price price_str.

(** The body of the first loop of [parse_pricing_data]. *)
Definition add_row (instance_pricing : list (value * list PricingEntry)) (r : row)
  : result (list (value * list PricingEntry)) :=
  let instance_type := get r "instance_type" (VStr "") in
  if negb (truthy instance_type) then Ok instance_pricing
  else
    region <- clean_html (get r "region" (VStr "")) ;;
    if (region =? "") then Ok instance_pricing
    else
      let price_str := get r "price" (VStr "") in
      if negb (truthy price_str) then Ok instance_pricing
      else
        '(hourly, per_acc) <- parse_price_string price_str ;;
        if F64.eqb hourly F64.zero then Ok instance_pricing
        else
          let entry :=
            {| region := region;
               region_code := region_code_of region;
               hourly_rate_usd := hourly;
               accelerator_hourly_rate_usd := per_acc |} in
          if hashable instance_type
          then Ok (append_entry instance_type entry instance_pricing)
          else Raise TypeError.

Definition parse_pricing_data (json_data : list row)
  : result (list (value * InstanceTypePricing)) :=
  instance_pricing <- for_each add_row json_data [] ;;
  for_each add_instance instance_pricing [].

End WithHtmlText.

End Parser.

(** ** scraper.py *)

Module Scraper.

Import Json Models Parser.

Definition SOURCE_URL : string := "https://aws.amazon.com/ec2/capacityblocks/pricing/".
Definition VERSION : string := "1.0.0".

Definition no_data : exn := ValueError "No pricing data found in the page".
Definition no_parsed_data : exn := ValueError "Failed to parse any instance type pricing".

Section WithWorld.

Context {html_text : HtmlText}.

(** The two reads of the outside world: the page behind a URL, or the
    exception of the request, and the clock, already formatted. *)
Variable fetch_page : string -> result string.
Variable utc_now : string.

Definition scrape_pricing : result PricingData :=
  html <- fetch_page SOURCE_URL ;;
  json_data <- extract_json_data html ;;
  match json_data with
  | [] => Raise no_data
  | _ =>
      instance_types <- parse_pricing_data json_data ;;
      match instance_types with
      | [] => Raise no_parsed_data
      | _ =>
          Ok {| metadata := {| last_updated := utc_now;
                               source_url := SOURCE_URL;
                               version := VERSION |};
                instance_types := instance_types |}
      end
  end.

End WithWorld.

End Scraper.

(** ** A small instance of the HTML interface

    Text content by dropping everything between [<] and the next [>], and
    no character reference decoded: enough to run the pipeline on the
    texts of the examples. *)

Module PlainHtml.

Fixpoint strip_tags (in_tag : bool) (s : string) : string :=
  match s with
  | EmptyString => EmptyString
  | String c s' =>
      if in_tag then strip_tags (negb (Ascii.eqb c ">"%char)) s'
      else if Ascii.eqb c "<"%char then strip_tags true s'
      else String c (strip_tags false s')
  end.

Definition keep_references (s : string) : string := s.
Definition text_outside_tags (s : string) : string := strip_tags false s.



End PlainHtml.

(** ** Example inputs *)

Module Examples.

Import Json Parser.

(** JSON texts are written with ['] for the double quote. *)
Fixpoint sq (s : string) : string :=
  match s with
  | EmptyString => EmptyString
  | String c s' => String (if Ascii.eqb c "'"%char then dq else c) (sq s')
  end.

Definition script (body : string) : string :=
  (OPEN_TAG ++ body ++ "</script>")%string.

(** The script of the end-to-end example: one pricing table, one row
    definition and one item. *)
Definition p5_body : string :=
  sq "{'data':{'items':[{'fields':{'jsonData':'{\'heading\':\'P5 Instance Pricing\',\'table\':{\'rowDefinitions\':[{\'id\':\'r1\',\'label\':\'p5.48xlarge\'}],\'items\':[{\'idProperty\':\'r1\',\'2\':\'US East (N. Virginia)\',\'3\':\'$31.464 USD ($3.933 USD)\'}]}}'}}]}}".

Definition p5_page : string := script p5_body.

(** The same table under the heading of a feature comparison. *)
Definition feature_page : string :=
  script (sq "{'data':{'items':[{'fields':{'jsonData':'{\'heading\':\'Feature Comparison\',\'table\':{\'rowDefinitions\':[{\'id\':\'r1\',\'label\':\'p5.48xlarge\'}],\'items\':[{\'idProperty\':\'r1\',\'2\':\'US East (N. Virginia)\',\'3\':\'$31.464 USD ($3.933 USD)\'}]}}'}}]}}").








(** Two items of one table; the price of the second has a comma where the
    amount should be. *)
Definition comma_price_page : string :=
  script (sq "{'data':{'items':[{'fields':{'jsonData':'{\'heading\':\'P5 Instance Pricing\',\'table\':{\'rowDefinitions\':[{\'id\':\'r1\',\'label\':\'p5.48xlarge\'}],\'items\':[{\'idProperty\':\'r1\',\'2\':\'US East (N. Virginia)\',\'3\':\'$31.464 USD ($3.933 USD)\'},{\'idProperty\':\'r1\',\'2\':\'US East (Ohio)\',\'3\':\'$, USD\'}]}}'}}]}}").

(** One item whose price is not a price. *)
Definition no_price_page : string :=
  script (sq "{'data':{'items':[{'fields':{'jsonData':'{\'heading\':\'P5 Instance Pricing\',\'table\':{\'rowDefinitions\':[{\'id\':\'r1\',\'label\':\'p5.48xlarge\'}],\'items\':[{\'idProperty\':\'r1\',\'2\':\'US East (N. Virginia)\',\'3\':\'on request\'}]}}'}}]}}").

(** The pricing table of [p5_page] behind opening tags that differ from
    the scanned one: one more attribute, the attributes in another order,
    single quotes, one more space. *)
Definition variant_pages : list string :=
  [ (sq "<script type='application/json' id='pricing'>" ++ p5_body ++ "</script>")%string;
    (sq "<script id='pricing' type='application/json'>" ++ p5_body ++ "</script>")%string;
    ("<script type='application/json'>" ++ p5_body ++ "</script>")%string;
    (sq "<script  type='application/json'>" ++ p5_body ++ "</script>")%string ].

End Examples.

(** ** Pages of the expected shape

    The JSON of a page has the expected shape when every value that the
    extraction reads as an object, an array or a string is one: the
    envelope, its [data], every item and its [fields] are objects, [items]
    is an array, a non-empty [jsonData] is a string, and what it decodes to
    is an object with a string heading; under a pricing heading, [table] is
    an object, [rowDefinitions] an array of objects that each have an [id]
    usable as a key, and [items] an array of objects whose [idProperty] is
    usable as a key.  A text that does not decode has nothing to check; a
    text whose decoding raises (an integer beyond the digit limit) is not
    of the expected shape. *)

Module Shape.

Import Json Parser.








(** A row that comes from a table whose heading holds "Pricing". *)
Definition pricing_row (r : row) : Prop :=
  py_in "Pricing" (get r "heading" (VStr "")) = Ok true.

(** A row with string fields, as [extract_json_data] builds it. *)
Definition text_row (instance_type reg price : string) (heading : value) : row :=
  [("instance_type", VStr instance_type); ("region", VStr reg);
   ("price", VStr price); ("heading", heading)].



End Shape.

(** ** Well-formed price texts

    An amount as the price strings write it: digits and thousands
    separators with at least one digit, then optionally a point and more
    digits.  Its value is the float nearest to the decimal it denotes once
    the separators are dropped. *)

Module Price.

Import Json.








End Price.

(** ** Price texts, pages and views of the normalisation

    The texts and the pages that the further properties speak about, and
    the two loops of [parse_pricing_data] seen row by row. *)

Module Texts.

Import Parser.




(** The closing tag of the script pattern. *)
Definition CLOSE_TAG : string := "</script>".

(** A page put together from scripts: before each script a text, after the
    last one a tail. *)
Fixpoint assembled (parts : list (string * string)) (tail : string) : string :=
  match parts with
  | [] => tail
  | (gap, content) :: parts' =>
      (gap ++ OPEN_TAG ++ content ++ CLOSE_TAG ++ assembled parts' tail)%string
  end.

End Texts.

Module Rows.

Import Json Models Parser.

(** A loop body that only appends to the rows collected so far. *)
Definition appends {A : Type} (body : list row -> A -> result (list row)) : Prop :=
  forall acc x, body acc x = (new <- body [] x ;; Ok (acc ++ new)).

(** A row as [extract_json_data] builds it: the four keys, and the first
    three values true in a test. *)
Definition extracted_row (r : row) : Prop :=
  exists instance_type reg price heading,
    r = [("instance_type", instance_type); ("region", reg);
         ("price", price); ("heading", heading)] /\
    truthy instance_type = true /\ truthy reg = true /\ truthy price = true.

Definition is_string (v : value) : bool :=
  match v with
  | VStr _ => true
  | _ => false
  end.


(** What one row contributes to [parse_pricing_data]: nothing when it is
    skipped, or its key and its entry (lines 176-202). *)
Definition row_entry {html_text : HtmlText} (r : row)
  : result (option (value * PricingEntry)) :=
  let instance_type := get r "instance_type" (VStr "") in
  if negb (truthy instance_type) then Ok None
  else
    reg <- clean_html (get r "region" (VStr "")) ;;
    if (reg =? "") then Ok None
    else
      let price_str := get r "price" (VStr "") in
      if negb (truthy price_str) then Ok None
      else
        '(hourly, per_acc) <- parse_price_string price_str ;;
        if F64.eqb hourly F64.zero then Ok None
        else
          if hashable instance_type
          then Ok (Some (instance_type,
                         {| region := reg;
                            region_code := region_code_of reg;
                            hourly_rate_usd := hourly;
                            accelerator_hourly_rate_usd := per_acc |}))
          else Raise TypeError.

Definition optional {A : Type} (o : option A) : list A :=
  match o with
  | Some a => [a]
  | None => []
  end.

(** The keys and entries of the rows that are kept, in the order of the
    rows; the first exception of a row otherwise. *)
Fixpoint entries_of {html_text : HtmlText} (rows : list row)
  : result (list (value * PricingEntry)) :=
  match rows with
  | [] => Ok []
  | r :: rows' =>
      o <- row_entry r ;;
      rest <- entries_of rows' ;;
      Ok (optional o ++ rest)
  end.

(** The entries among [kes] whose key is the string [s]. *)
Definition entries_for (s : string) (kes : list (value * PricingEntry))
  : list PricingEntry :=
  map snd (filter (fun ke => key_eqb (fst ke) (VStr s)) kes).

(** [instance_types[k].pricing], empty when the key is absent. *)
Definition pricing_of (k : value) (m : list (value * InstanceTypePricing))
  : list PricingEntry :=
  match vdict_get k m with
  | Some itp => pricing itp
  | None => []
  end.

(** [instance_pricing[k]] after the first loop, empty when the key is
    absent. *)
Definition group_get (k : value) (d : list (value * list PricingEntry))
  : list PricingEntry :=
  match vdict_get k d with
  | Some es => es
  | None => []
  end.

(** [instance_pricing] once the entries [kes] were appended to [d]. *)
Definition grouped (kes : list (value * PricingEntry)) (d : list (value * list PricingEntry))
  : list (value * list PricingEntry) :=
  fold_left (fun d ke => append_entry (fst ke) (snd ke) d) kes d.

(** An instance type of the output next to its group of the first loop. *)
Definition recorded (kv : value * list PricingEntry) (ki : value * InstanceTypePricing)
  : Prop :=
  fst ki = fst kv /\ pricing (snd ki) = snd kv /\
  instance_info (fst kv)
  = Ok (instance_family (snd ki), accelerator_type (snd ki), accelerator_count (snd ki)).

End Rows.

(** The two numbers that [main] computes from the scraped data before it
    prints them (lines 75 and 76 of scraper.py). *)

Module Report.

Import Models.

Definition instance_count (data : PricingData) : nat :=
  List.length (instance_types data).

Definition total_entries (data : PricingData) : nat :=
  list_sum (map (fun ki => List.length (pricing (snd ki))) (instance_types data)).

End Report.

(** Rows and results for the further properties. *)

Module Samples.

Import Json Models Parser Scraper Shape.

(** Two rows of one instance type around a row of another one. *)
Definition three_rows : list row :=
  [text_row "p5.48xlarge" "US East (Ohio)" "$12.50 USD" (VStr "P5 Instance Pricing");
   text_row "trn2.48xlarge" "Atlantis" "$2 USD ($0.125 USD)" (VStr "Trn2 Instance Pricing");
   text_row "p5.48xlarge" "US East (N. Virginia)" "$31.464 USD ($3.933 USD)"
     (VStr "P5 Instance Pricing")].

Definition ohio_entry : PricingEntry :=
  {| region := "US East (Ohio)";
     region_code := "us-east-2";
     hourly_rate_usd := decimal_float false 1250 (-2);
     accelerator_hourly_rate_usd := F64.zero |}.

Definition atlantis_entry : PricingEntry :=
  {| region := "Atlantis";
     region_code := "unknown";
     hourly_rate_usd := decimal_float false 2 0;
     accelerator_hourly_rate_usd := decimal_float false 125 (-3) |}.

Definition virginia_entry : PricingEntry :=
  {| region := "US East (N. Virginia)";
     region_code := "us-east-1";
     hourly_rate_usd := decimal_float false 31464 (-3);
     accelerator_hourly_rate_usd := decimal_float false 3933 (-3) |}.

Definition three_rows_result : list (value * InstanceTypePricing) :=
  [(VStr "p5.48xlarge",
    {| instance_family := "P5"; accelerator_type := "H100"; accelerator_count := 8;
       pricing := [ohio_entry; virginia_entry] |});
   (VStr "trn2.48xlarge",
    {| instance_family := "Trn2"; accelerator_type := "Trainium2"; accelerator_count := 16;
       pricing := [atlantis_entry] |})].

(** What [scrape_pricing] returns on [p5_page] at the time [now]. *)
Definition page_data (now : string) : PricingData :=
  {| metadata := {| last_updated := now; source_url := SOURCE_URL; version := VERSION |};
     instance_types :=
       [(VStr "p5.48xlarge",
         {| instance_family := "P5"; accelerator_type := "H100"; accelerator_count := 8;
            pricing := [virginia_entry] |})] |}.

End Samples.

(** * Properties *)

Import Re Json Models Parser Scraper PlainHtml Shape Examples Price.

(** ** Strings *)




Lemma all_chars_impl (p q : ascii -> bool) (s : string) :
  (forall c, p c = true -> q c = true) -> all_chars p s = true -> all_chars q s = true.
Proof.
  intros Hpq; induction s as [|x s IH]; simpl; [reflexivity|].
  intros H; apply andb_prop in H as [Hx Hs].
  now rewrite (Hpq _ Hx), (IH Hs).
Qed.

Lemma append_assoc (a b c : string) : ((a ++ b) ++ c = a ++ (b ++ c))%string.
Proof. induction a as [|x a IH]; simpl; [reflexivity | now rewrite IH]. Qed.

Lemma append_empty_r (a : string) : (a ++ "" = a)%string.
Proof. induction a as [|x a IH]; simpl; [reflexivity | now rewrite IH]. Qed.

Lemma length_app (a b : string) :
  String.length (a ++ b) = String.length a + String.length b.
Proof. induction a as [|x a IH]; simpl; [reflexivity | now rewrite IH]. Qed.

Lemma substring_prefix (a b : string) :
  substring 0 (String.length a) (a ++ b) = a.
Proof. induction a as [|x a IH]; simpl; [now destruct b | now rewrite IH]. Qed.


Lemma lstrip_head c (s : string) :
  is_space c = false -> lstrip (String c s) = String c s.
Proof. intros Hc; simpl; now rewrite Hc. Qed.


Lemma startswith_app (p s : string) : startswith p (p ++ s) = true.
Proof.
  induction p as [|x p IH]; simpl; [reflexivity|].
  now rewrite Ascii.eqb_refl, IH.
Qed.

Lemma startswith_inv (p s : string) :
  startswith p s = true -> exists t, s = (p ++ t)%string.
Proof.
  revert s; induction p as [|x p IH]; intros s H; simpl in *.
  - now exists s.
  - destruct s as [|y s]; [discriminate|].
    apply andb_prop in H as [Hxy Hp].
    apply Ascii.eqb_eq in Hxy; subst y.
    destruct (IH _ Hp) as [t ->]. now exists t.
Qed.

Lemma contains_tail needle c (s : string) :
  contains needle (String c s) = false -> contains needle s = false.
Proof. simpl; intros H; now apply orb_false_elim in H as [_ H]. Qed.

Lemma contains_head needle (s : string) :
  contains needle s = false -> startswith needle s = false.
Proof. destruct s; simpl; intros H; now apply orb_false_elim in H as [H _]. Qed.

(** ** The matcher *)

Lemma capture_app (a s : string) : capture (a ++ s) s = a.
Proof.
  unfold capture. rewrite length_app.
  replace (String.length a + String.length s - String.length s) with (String.length a) by lia.
  apply substring_prefix.
Qed.








Lemma lit_match (l : string) r o caps (s : string) :
  match_here (lit l ++ r) o caps (l ++ s) = match_here r o caps s.
Proof.
  induction l as [|a l IH]; simpl; [reflexivity|].
  now rewrite Ascii.eqb_refl.
Qed.










Lemma lazy_inv c k (s : string) res :
  lazy c k s = Some res -> exists w s', s = (w ++ s')%string /\ k s' = Some res.
Proof.
  induction s as [|a s IH]; simpl; intros H.
  - destruct (k "") eqn:K; [|discriminate].
    exists "", "". split; [reflexivity | congruence].
  - destruct (k (String a s)) eqn:K.
    + exists "", (String a s). split; [reflexivity | congruence].
    + destruct (cset_match c a); [|discriminate].
      destruct (IH H) as (w & s' & -> & K').
      now exists (String a w), s'.
Qed.

Lemma one_inv c k (s : string) res :
  one c k s = Some res ->
  exists a s', s = String a s' /\ cset_match c a = true /\ k s' = Some res.
Proof.
  destruct s as [|a s]; simpl; [discriminate|].
  destruct (cset_match c a) eqn:E; [|discriminate].
  intros K. now exists a, s.
Qed.




(** ** float() on amounts *)



Lemma digit_not_point c : is_digit c = true -> Ascii.eqb c "." = false.
Proof.
  intros H; destruct (Ascii.eqb_spec c "."%char) as [->|]; [discriminate | reflexivity].
Qed.








Section CleanHtml.

Context {html_text : HtmlText}.





End CleanHtml.

(** ** The HTML interface *)

Lemma strip_tags_plain (s : string) :
  has_char "<" s = false -> strip_tags false s = s.
Proof.
  induction s as [|c s IH]; simpl; [reflexivity|]; intros H.
  apply orb_false_elim in H as [Hc Hs]. now rewrite Hc, (IH Hs).
Qed.

Lemma plain_unescape (s : string) :
  has_char "&" s = false -> keep_references s = s.
Proof. reflexivity. Qed.

Lemma plain_get_text (s : string) :
  has_char "&" s = false -> has_char "<" s = false ->
  strip (text_outside_tags s) = strip s.
Proof. intros _ H. unfold text_outside_tags. now rewrite strip_tags_plain. Qed.

#[export]
Instance plain_html : HtmlText := {|
  unescape := keep_references;
  get_text := text_outside_tags;
  unescape_plain := plain_unescape;
  get_text_plain := plain_get_text
|}.







Section EndToEnd.

Context {html_text : HtmlText}.



End EndToEnd.

(** ** The two tables *)

Lemma lookup_In {A : Type} k (d : list (string * A)) v :
  lookup k d = Some v -> In (k, v) d.
Proof.
  induction d as [|[k' v'] d IH]; simpl; [discriminate|].
  destruct (String.eqb_spec k k') as [->|]; intros H.
  - left; congruence.
  - right; auto.
Qed.

Lemma region_codes_nonempty k c :
  lookup k REGION_NAME_TO_CODE = Some c -> (c =? "") = false.
Proof.
  intros H; apply lookup_In in H.
  unfold REGION_NAME_TO_CODE in H; simpl in H.
  repeat (destruct H as [H|H]; [injection H as _ <-; reflexivity|]).
  destruct H.
Qed.


Lemma known_family s i :
  lookup s INSTANCE_TYPE_INFO = Some i -> (family i =? "Unknown") = false.
Proof.
  intros H; apply lookup_In in H.
  unfold INSTANCE_TYPE_INFO in H; simpl in H.
  repeat (destruct H as [H|H]; [injection H as _ <-; reflexivity|]).
  destruct H.
Qed.

Lemma instance_info_known s i :
  lookup s INSTANCE_TYPE_INFO = Some i ->
  instance_info (VStr s) = Ok (family i, accelerator i, count i).
Proof.
  intros H; unfold instance_info. rewrite H. now rewrite (known_family _ _ H).
Qed.

Lemma instance_info_inferred s :
  lookup s INSTANCE_TYPE_INFO = None ->
  instance_info (VStr s) = _infer_instance_info (VStr s).
Proof. intros H; unfold instance_info. now rewrite H. Qed.

Lemma infer_total s : is_ok (_infer_instance_info (VStr s)) = true.
Proof.
  unfold _infer_instance_info.
  repeat match goal with
         | |- context [if ?b then _ else _] => destruct b
         end; reflexivity.
Qed.

Lemma instance_info_total s : is_ok (instance_info (VStr s)) = true.
Proof.
  destruct (lookup s INSTANCE_TYPE_INFO) as [i|] eqn:E.
  - now rewrite (instance_info_known _ _ E).
  - rewrite (instance_info_inferred _ E). apply infer_total.
Qed.

(** An identifier of the table, looked at entry by entry. *)
Ltac table_cases E :=
  apply lookup_In in E; unfold INSTANCE_TYPE_INFO in E; simpl in E;
  repeat (destruct E as [E|E];
          [injection E as <- <-;
           try match goal with
               | H : startswith _ _ = _ |- _ => now vm_compute in H
               end;
           vm_compute; eauto |]);
  destruct E.

Ltac resolve_by H :=
  match goal with
  | |- context [instance_info (VStr ?s)] =>
      let E := fresh "E" in
      destruct (lookup s INSTANCE_TYPE_INFO) as [?i|] eqn:E;
      [ rewrite (instance_info_known _ _ E); table_cases E
      | rewrite (instance_info_inferred _ E); unfold _infer_instance_info ]
  end.

Lemma starts_p5en_p5e s : startswith "p5en" s = true -> startswith "p5e" s = true.
Proof. intros H; apply startswith_inv in H as [t ->]. reflexivity. Qed.

Lemma starts_p5e_p5 s : startswith "p5e" s = true -> startswith "p5" s = true.
Proof. intros H; apply startswith_inv in H as [t ->]. reflexivity. Qed.

Lemma p5en_family s :
  startswith "p5en" s = true ->
  exists a c, instance_info (VStr s) = Ok ("P5en", a, c).
Proof. intros H. resolve_by H. rewrite H. eauto. Qed.

Lemma p5e_family s :
  startswith "p5e" s = true -> startswith "p5en" s = false ->
  exists a c, instance_info (VStr s) = Ok ("P5e", a, c).
Proof. intros H N. resolve_by H. rewrite N, H. eauto. Qed.

Lemma p5_family s :
  startswith "p5" s = true -> startswith "p5e" s = false ->
  exists a c, instance_info (VStr s) = Ok ("P5", a, c).
Proof.
  intros H N.
  assert (N' : startswith "p5en" s = false).
  { destruct (startswith "p5en" s) eqn:K; [|reflexivity].
    apply starts_p5en_p5e in K. congruence. }
  resolve_by H. rewrite N', N, H. eauto.
Qed.

Ltac other_prefix H :=
  let K := fresh "K" in
  match goal with
  | |- context [if startswith ?p ?s then _ else _] =>
      destruct (startswith p s) eqn:K;
      [apply startswith_inv in K as [?t ->]; now vm_compute in H|]
  end.

Lemma p6_b300_family s :
  startswith "p6-b300" s = true ->
  exists a c, instance_info (VStr s) = Ok ("P6-B300", a, c).
Proof. intros H. resolve_by H. do 3 other_prefix H. rewrite H. eauto. Qed.

Lemma p6_b200_family s :
  startswith "p6-b200" s = true ->
  exists a c, instance_info (VStr s) = Ok ("P6-B200", a, c).
Proof. intros H. resolve_by H. do 4 other_prefix H. rewrite H. eauto. Qed.

Lemma unknown_fallback s :
  lookup s INSTANCE_TYPE_INFO = None -> no_prefix_rule s = true ->
  instance_info (VStr s) = Ok ("Unknown", "Unknown", 0%Z).
Proof.
  intros Hl Hp. rewrite (instance_info_inferred _ Hl).
  unfold no_prefix_rule, rule_prefixes in Hp. cbn [forallb] in Hp.
  repeat (apply andb_prop in Hp as [?E Hp]).
  repeat match goal with
         | E : negb _ = true |- _ => apply negb_true_iff in E
         end.
  unfold _infer_instance_info.
  repeat match goal with
         | E : startswith _ s = false |- _ => rewrite E; clear E
         end.
  reflexivity.
Qed.

Lemma unknown_only_fallback s :
  instance_info (VStr s) = Ok ("Unknown", "Unknown", 0%Z) ->
  lookup s INSTANCE_TYPE_INFO = None /\ no_prefix_rule s = true.
Proof.
  intros H. destruct (lookup s INSTANCE_TYPE_INFO) as [i|] eqn:E.
  - rewrite (instance_info_known _ _ E) in H.
    pose proof (known_family _ _ E) as K.
    injection H as Hf _ _. rewrite Hf in K. discriminate.
  - split; [reflexivity|].
    rewrite (instance_info_inferred _ E) in H.
    unfold _infer_instance_info in H.
    unfold no_prefix_rule, rule_prefixes. cbn [forallb].
    repeat match type of H with
           | context [if startswith ?p s then _ else _] =>
               destruct (startswith p s); [try discriminate|]
           end;
    try (repeat match type of H with
           | context [if contains ?p s then _ else _] =>
               destruct (contains p s)
           end; discriminate).
    reflexivity.
Qed.

(** C5. Metadata resolution returns a triple for every identifier: the
    entry of the exact-match table when there is one, otherwise the result
    of the prefix rules, where "p5en" wins over "p5e" and "p5e" over "p5",
    "p6-b300" and "p6-b200" have their own families, and the triple is
    ("Unknown", "Unknown", 0) exactly when no table entry and no prefix rule
    applies. *)
Theorem instance_info_resolution (s : string) :
  is_ok (instance_info (VStr s)) = true /\
  (forall i, lookup s INSTANCE_TYPE_INFO = Some i ->
             instance_info (VStr s) = Ok (family i, accelerator i, count i)) /\
  (lookup s INSTANCE_TYPE_INFO = None ->
   instance_info (VStr s) = _infer_instance_info (VStr s)) /\
  (startswith "p5en" s = true ->
   exists a c, instance_info (VStr s) = Ok ("P5en", a, c)) /\
  (startswith "p5e" s = true -> startswith "p5en" s = false ->
   exists a c, instance_info (VStr s) = Ok ("P5e", a, c)) /\
  (startswith "p5" s = true -> startswith "p5e" s = false ->
   exists a c, instance_info (VStr s) = Ok ("P5", a, c)) /\
  (startswith "p6-b300" s = true ->
   exists a c, instance_info (VStr s) = Ok ("P6-B300", a, c)) /\
  (startswith "p6-b200" s = true ->
   exists a c, instance_info (VStr s) = Ok ("P6-B200", a, c)) /\
  (instance_info (VStr s) = Ok ("Unknown", "Unknown", 0%Z) <->
   lookup s INSTANCE_TYPE_INFO = None /\ no_prefix_rule s = true).
Proof.
  split; [apply instance_info_total|].
  split; [apply instance_info_known|].
  split; [apply instance_info_inferred|].
  split; [apply p5en_family|].
  split; [apply p5e_family|].
  split; [apply p5_family|].
  split; [apply p6_b300_family|].
  split; [apply p6_b200_family|].
  split; [apply unknown_only_fallback | intros [? ?]; now apply unknown_fallback].
Qed.

(** ** Loops *)

Lemma for_each_invariant {A S : Type} (P : S -> Prop) (body : S -> A -> result S) l :
  (forall s x s', In x l -> P s -> body s x = Ok s' -> P s') ->
  forall s s', P s -> for_each body l s = Ok s' -> P s'.
Proof.
  induction l as [|x l IH]; intros Hbody s s' Hs H; simpl in H.
  - congruence.
  - destruct (body s x) as [s1|e] eqn:E; simpl in H; [|discriminate].
    apply (IH (fun s x s' Hx => Hbody s x s' (or_intror Hx)) s1 s'); [|assumption].
    apply (Hbody s x s1); [now left | assumption | assumption].
Qed.


Lemma bind_ok {A B : Type} (m : result A) (k : A -> result B) b :
  bind m k = Ok b -> exists a, m = Ok a /\ k a = Ok b.
Proof. destruct m as [a|e]; simpl; [now exists a | discriminate]. Qed.

(** ** The scan for scripts *)

Lemma lit_inv (l : string) r o caps (s : string) res :
  match_here (lit l ++ r) o caps s = Some res ->
  exists s', s = (l ++ s')%string /\ match_here r o caps s' = Some res.
Proof.
  revert s; induction l as [|a l IH]; intros s H; simpl in H.
  - now exists s.
  - apply one_inv in H as (x & s1 & -> & Hx & K).
    apply Ascii.eqb_eq in Hx; subst x.
    destruct (IH _ K) as (s' & -> & K'). now exists s'.
Qed.

Lemma findall_from_nothing r (l : string) :
  (forall s, startswith l s = false -> match_at r s = None) ->
  forall (s : string) skip, contains l s = false -> findall_from r skip s = [].
Proof.
  intros Hr; induction s as [|c s IH]; intros skip H.
  - destruct skip; simpl; [|reflexivity].
    now rewrite (Hr "" (contains_head _ _ H)).
  - pose proof (contains_tail _ _ _ H) as Ht.
    destruct skip; simpl; [|now apply IH].
    rewrite (Hr _ (contains_head _ _ H)). now apply IH.
Qed.

Lemma script_pattern_needs_tag (s : string) :
  startswith OPEN_TAG s = false -> match_at script_pattern s = None.
Proof.
  intros H. destruct (match_at script_pattern s) as [res|] eqn:E; [|reflexivity].
  apply lit_inv in E as (s' & -> & _).
  now rewrite startswith_app in H.
Qed.

Lemma script_matches_without_tag html :
  contains OPEN_TAG html = false -> script_matches html = [].
Proof.
  intros H. unfold script_matches, findall.
  now rewrite (findall_from_nothing _ OPEN_TAG script_pattern_needs_tag).
Qed.

(** A match of the script pattern is the opening tag, the captured
    content and the closing tag. *)
Lemma script_pattern_match (s : string) caps rest :
  match_at script_pattern s = Some (caps, rest) ->
  exists c, caps = [c] /\ s = (OPEN_TAG ++ c ++ "</script>" ++ rest)%string.
Proof.
  unfold match_at, script_pattern. intros H.
  apply lit_inv in H as (s1 & -> & H).
  cbn [app match_here] in H.
  apply lazy_inv in H as (w & s2 & -> & H).
  change (match_here (lit "</script>" ++ []) (w ++ s2) ([] ++ [capture (w ++ s2) s2]) s2
          = Some (caps, rest)) in H.
  apply lit_inv in H as (s3 & -> & H).
  rewrite capture_app in H. simpl in H. injection H as <- <-.
  now exists w.
Qed.

Lemma contains_app_r needle (a b : string) :
  contains needle b = true -> contains needle (a ++ b) = true.
Proof.
  intros H; induction a as [|x a IH]; simpl; [assumption|].
  rewrite IH. apply orb_true_r.
Qed.

Lemma contains_prefix (needle b : string) : contains needle (needle ++ b) = true.
Proof. destruct needle; simpl; [now destruct b|]. now rewrite Ascii.eqb_refl, startswith_app. Qed.

Lemma findall_from_In r caps (s : string) skip :
  In caps (findall_from r skip s) ->
  exists pre s' rest, s = (pre ++ s')%string /\ match_at r s' = Some (caps, rest).
Proof.
  revert skip; induction s as [|c s IH]; intros skip H.
  - destruct skip; simpl in H; [|destruct H].
    destruct (match_at r "") as [[caps' rest]|] eqn:E; [|destruct H].
    destruct H as [<-|[]]. now exists "", "", rest.
  - destruct skip; simpl in H.
    + destruct (match_at r (String c s)) as [[caps' rest]|] eqn:E.
      * destruct H as [<-|H]; [now exists "", (String c s), rest|].
        destruct (IH _ H) as (pre & s' & rest' & -> & K).
        now exists (String c pre), s', rest'.
      * destruct (IH _ H) as (pre & s' & rest' & -> & K).
        now exists (String c pre), s', rest'.
    + destruct (IH _ H) as (pre & s' & rest' & -> & K).
      now exists (String c pre), s', rest'.
Qed.

(** Every scanned script content stands in the page between the opening
    tag, written exactly so, and a closing tag. *)
Lemma script_matches_delimited html c :
  In c (script_matches html) ->
  contains (OPEN_TAG ++ c ++ "</script>") html = true.
Proof.
  unfold script_matches, findall. intros H.
  apply in_map_iff in H as (caps & <- & H).
  apply findall_from_In in H as (pre & s' & rest & -> & K).
  apply script_pattern_match in K as (c & -> & ->).
  apply contains_app_r. cbn [group nth Nat.pred].
  replace (OPEN_TAG ++ c ++ "</script>" ++ rest)%string
    with ((OPEN_TAG ++ c ++ "</script>") ++ rest)%string
    by (now rewrite !append_assoc).
  apply contains_prefix.
Qed.

(** C10. Only script tags whose opening tag is written exactly
    <script type="application/json"> are scanned: a page without this exact
    text yields no row, every scanned content stands right behind it, and
    the pricing script of the end-to-end example behind an opening tag with
    one more attribute, with the attributes in another order, with single
    quotes or with one more space contributes nothing. *)
Theorem only_exact_script_tag :
  (forall html, contains OPEN_TAG html = false -> extract_json_data html = Ok []) /\
  (forall html c, In c (script_matches html) ->
                  contains (OPEN_TAG ++ c ++ "</script>") html = true) /\
  Forall (fun page => contains "P5 Instance Pricing" page = true /\
                      extract_json_data page = Ok []) variant_pages.
Proof.
  split; [|split].
  - intros html H. unfold extract_json_data.
    now rewrite (script_matches_without_tag _ H).
  - exact script_matches_delimited.
  - repeat constructor; vm_compute; reflexivity.
Qed.

(** ** Extraction *)

Lemma table_item_row_pricing row_labels heading all_rows table_item rows' :
  py_in "Pricing" heading = Ok true ->
  Forall pricing_row all_rows ->
  table_item_row row_labels heading all_rows table_item = Ok rows' ->
  Forall pricing_row rows'.
Proof.
  intros Hh Hall H. unfold table_item_row in H.
  apply bind_ok in H as (row_id & _ & H).
  apply bind_ok in H as (instance_type & _ & H).
  apply bind_ok in H as (reg & _ & H).
  apply bind_ok in H as (price & _ & H).
  destruct (truthy instance_type && truthy reg && truthy price);
    injection H as <-; [|assumption].
  apply Forall_app; split; [assumption|].
  constructor; [exact Hh | constructor].
Qed.

Lemma table_rows_pricing all_rows table_data rows' :
  Forall pricing_row all_rows ->
  table_rows all_rows table_data = Ok rows' ->
  Forall pricing_row rows'.
Proof.
  intros Hall H. unfold table_rows in H.
  apply bind_ok in H as (heading & _ & H).
  apply bind_ok in H as (is_pricing & Hp & H).
  destruct is_pricing; simpl in H; [|now injection H as <-].
  apply bind_ok in H as (table & _ & H).
  apply bind_ok in H as (row_definitions & _ & H).
  apply bind_ok in H as (table_items & _ & H).
  apply bind_ok in H as (defs & _ & H).
  apply bind_ok in H as (row_labels & _ & H).
  apply bind_ok in H as (its & _ & H).
  revert H. apply for_each_invariant; [|assumption].
  intros s x s' _ Hs. now apply table_item_row_pricing.
Qed.

Lemma item_rows_pricing all_rows item rows' :
  Forall pricing_row all_rows ->
  item_rows all_rows item = Ok rows' ->
  Forall pricing_row rows'.
Proof.
  intros Hall H. unfold item_rows in H.
  apply bind_ok in H as (fields & _ & H).
  apply bind_ok in H as (json_data_str & _ & H).
  destruct (truthy json_data_str); simpl in H; [|now injection H as <-].
  apply bind_ok in H as (decoded & _ & H).
  destruct decoded as [table_data|]; [|now injection H as <-].
  now apply (table_rows_pricing all_rows table_data).
Qed.

Lemma script_rows_pricing all_rows script_content rows' :
  Forall pricing_row all_rows ->
  script_rows all_rows script_content = Ok rows' ->
  Forall pricing_row rows'.
Proof.
  intros Hall H. unfold script_rows in H.
  apply bind_ok in H as (decoded & _ & H).
  destruct decoded as [outer_data|]; [|now injection H as <-].
  apply bind_ok in H as (data & _ & H).
  apply bind_ok in H as (items & _ & H).
  apply bind_ok in H as (its & _ & H).
  revert H. apply for_each_invariant; [|assumption].
  intros s x s' _ Hs. now apply item_rows_pricing.
Qed.

Lemma table_rows_other_heading all_rows table_data h :
  dict_get table_data "heading" (VStr "") = Ok (VStr h) ->
  contains "Pricing" h = false ->
  table_rows all_rows table_data = Ok all_rows.
Proof. intros Hh Hc. unfold table_rows. rewrite Hh. simpl. now rewrite Hc. Qed.

(** C8. A decoded table document whose heading does not hold "Pricing"
    (or has no heading) adds no row; every row of the output comes from a
    document whose heading holds "Pricing"; the page whose only table is
    headed "Feature Comparison" yields no row. *)
Theorem only_pricing_headings :
  (forall all_rows table_data h,
      dict_get table_data "heading" (VStr "") = Ok (VStr h) ->
      contains "Pricing" h = false ->
      table_rows all_rows table_data = Ok all_rows) /\
  (forall html rows r,
      extract_json_data html = Ok rows -> In r rows ->
      py_in "Pricing" (get r "heading" (VStr "")) = Ok true) /\
  extract_json_data feature_page = Ok [].
Proof.
  split; [exact table_rows_other_heading | split].
  - intros html rows r H Hr. unfold extract_json_data in H.
    assert (K : Forall pricing_row rows).
    { revert H. apply for_each_invariant; [|constructor].
      intros s x s' _ Hs. now apply script_rows_pricing. }
    rewrite Forall_forall in K. now apply K.
  - vm_compute. reflexivity.
Qed.

(** ** Extraction on pages of the expected shape *)










(** ** Signs of converted decimals *)

Lemma shr_1_nonneg mrs : (0 <= shr_m mrs)%Z -> (0 <= shr_m (shr_1 mrs))%Z.
Proof.
  destruct mrs as [m r s]; simpl.
  destruct m as [|p|p]; simpl; [lia | destruct p; simpl; lia | lia].
Qed.

Lemma iter_pos_shr_1_nonneg p :
  forall mrs, (0 <= shr_m mrs)%Z -> (0 <= shr_m (iter_pos shr_1 p mrs))%Z.
Proof.
  induction p as [p IH|p IH|]; intros mrs H; simpl.
  - apply IH, IH. now apply shr_1_nonneg.
  - now apply IH, IH.
  - now apply shr_1_nonneg.
Qed.

Lemma shr_fexp_nonneg m e l :
  (0 <= m)%Z -> (0 <= shr_m (fst (shr_fexp F64.prec F64.emax m e l)))%Z.
Proof.
  intros H. unfold shr_fexp, shr.
  assert (K : (0 <= shr_m (shr_record_of_loc m l))%Z) by (now destruct l as [|[]]).
  destruct (_ - e)%Z; simpl; try assumption.
  now apply iter_pos_shr_1_nonneg.
Qed.

Lemma round_nearest_even_nonneg m l :
  (0 <= m)%Z -> (0 <= round_nearest_even m l)%Z.
Proof.
  intros H. destruct l as [|[]]; simpl; try lia.
  destruct (Z.even m); lia.
Qed.

Lemma binary_round_aux_nonneg mx ex lx :
  (0 <= mx)%Z ->
  F64.is_nonneg (binary_round_aux F64.prec F64.emax false mx ex lx) = true.
Proof.
  intros H. unfold binary_round_aux.
  pose proof (shr_fexp_nonneg mx ex lx H) as H1.
  destruct (shr_fexp F64.prec F64.emax mx ex lx) as [mrs' e']. simpl in H1.
  pose proof (shr_fexp_nonneg _ e' loc_Exact
                (round_nearest_even_nonneg _ (loc_of_shr_record mrs') H1)) as H2.
  destruct (shr_fexp F64.prec F64.emax _ e' loc_Exact) as [mrs'' e'']. simpl in H2.
  destruct (shr_m mrs'') as [|m|m]; [reflexivity | | lia].
  now destruct (e'' <=? _)%Z.
Qed.

Lemma of_decimal_nonneg m e : F64.is_nonneg (F64.of_decimal false m e) = true.
Proof.
  unfold F64.of_decimal. destruct (0 <=? e)%Z.
  - unfold binary_round. destruct (shl_align _ _ _) as [mz ez].
    now apply binary_round_aux_nonneg.
  - unfold SFdiv_core_binary.
    set (m' := match _ with Z0 => _ | Zpos _ => _ | Zneg _ => _ end).
    assert (Hm : (0 <= m')%Z).
    { subst m'. destruct (_ - _)%Z; try lia. apply Z.shiftl_nonneg. lia. }
    pose proof (Z_div_mod m' (Z.pos (10 ^ Z.to_pos (- e))) ltac:(lia)) as D.
    destruct (Z.div_eucl m' _) as [q r].
    apply binary_round_aux_nonneg. nia.
Qed.

Lemma decimal_float_nonneg m e : F64.is_nonneg (decimal_float false m e) = true.
Proof. destruct m; simpl; try reflexivity. apply of_decimal_nonneg. Qed.

Lemma py_float_nonneg s f : py_float s = Ok f -> F64.is_nonneg f = true.
Proof.
  unfold py_float. destruct (span_digits s) as [ip r].
  destruct (match r with "" => _ | String _ _ => _ end) as [fp|]; [|discriminate].
  destruct (_ =? _); [discriminate|].
  intros H; injection H as <-. apply decimal_float_nonneg.
Qed.

Lemma nonneg_nonzero_positive f :
  F64.is_nonneg f = true -> F64.eqb f F64.zero = false -> F64.positive_float f = true.
Proof.
  destruct f as [[]|[]| |[] m e]; intros H K;
    try discriminate H; try discriminate K; reflexivity.
Qed.

Lemma match_price_nonneg s h a :
  match_price s = Ok (h, a) -> F64.is_nonneg h = true.
Proof.
  unfold match_price.
  destruct (search pattern s) as [[caps rest]|].
  - destruct (py_float (remove_char "," (group caps 1))) as [x|] eqn:E; [|discriminate].
    simpl. destruct (py_float (remove_char "," (group caps 2))); [|discriminate].
    simpl. intros H; injection H as <- _. now apply py_float_nonneg in E.
  - destruct (search single_pattern s) as [[caps rest]|].
    + destruct (py_float (remove_char "," (group caps 1))) as [x|] eqn:E; [|discriminate].
      simpl. intros H; injection H as <- _. now apply py_float_nonneg in E.
    + intros H; injection H as <- _. reflexivity.
Qed.

(** ** Normalisation *)

Lemma append_entry_positive k e d :
  F64.positive_float (hourly_rate_usd e) = true ->
  Forall (fun kv => all_positive (snd kv)) d ->
  Forall (fun kv => all_positive (snd kv)) (append_entry k e d).
Proof.
  intros He; induction 1 as [|[k' es] d Hes Hd IH]; simpl.
  - repeat constructor. exact He.
  - destruct (key_eqb k' k); constructor; simpl in *; try assumption.
    apply Forall_app; split; [assumption | now constructor].
Qed.

Lemma vdict_set_positive k v d :
  all_positive (pricing v) ->
  Forall (fun kv => all_positive (pricing (snd kv))) d ->
  Forall (fun kv => all_positive (pricing (snd kv))) (vdict_set k v d).
Proof.
  intros Hv; induction 1 as [|[k' v'] d Hv' Hd IH]; simpl.
  - now repeat constructor.
  - destruct (key_eqb k' k); constructor; simpl in *; assumption.
Qed.

Section Normalisation.

Context {html_text : HtmlText}.

Lemma parse_price_string_nonneg v h a :
  parse_price_string v = Ok (h, a) -> F64.is_nonneg h = true.
Proof.
  unfold parse_price_string. intros H.
  apply bind_ok in H as (s & _ & H). now apply match_price_nonneg in H.
Qed.

Lemma add_row_positive acc r acc' :
  Forall (fun kv => all_positive (snd kv)) acc ->
  add_row acc r = Ok acc' ->
  Forall (fun kv => all_positive (snd kv)) acc'.
Proof.
  intros Hacc H. unfold add_row in H.
  destruct (truthy (get r "instance_type" (VStr ""))); simpl in H;
    [|now injection H as <-].
  apply bind_ok in H as (reg & _ & H).
  destruct (reg =? ""); [now injection H as <-|].
  destruct (truthy (get r "price" (VStr ""))); simpl in H;
    [|now injection H as <-].
  apply bind_ok in H as ([hourly per_acc] & Hp & H).
  destruct (F64.eqb hourly F64.zero) eqn:Hz; [now injection H as <-|].
  destruct (hashable _); [|discriminate].
  injection H as <-. apply append_entry_positive; [|assumption].
  simpl. apply nonneg_nonzero_positive; [|assumption].
  now apply parse_price_string_nonneg in Hp.
Qed.

Lemma add_instance_positive acc kv acc' :
  all_positive (snd kv) ->
  Forall (fun kv => all_positive (pricing (snd kv))) acc ->
  add_instance acc kv = Ok acc' ->
  Forall (fun kv => all_positive (pricing (snd kv))) acc'.
Proof.
  destruct kv as [k es]. intros Hes Hacc H. unfold add_instance in H.
  apply bind_ok in H as ([[f a] c] & _ & H). injection H as <-.
  now apply vdict_set_positive.
Qed.

Lemma parse_pricing_data_positive json_data instance_types :
  parse_pricing_data json_data = Ok instance_types ->
  Forall (fun kv => all_positive (pricing (snd kv))) instance_types.
Proof.
  unfold parse_pricing_data. intros H.
  apply bind_ok in H as (instance_pricing & H1 & H2).
  assert (K : Forall (fun kv => all_positive (snd kv)) instance_pricing).
  { revert H1. apply for_each_invariant; [|constructor].
    intros s x s' _. apply add_row_positive. }
  revert H2. apply for_each_invariant; [|constructor].
  intros s x s' Hx Hs. apply add_instance_positive; [|assumption].
  rewrite Forall_forall in K. now apply K.
Qed.

Lemma positive_nonzero f : F64.positive_float f = true -> F64.eqb f F64.zero = false.
Proof. destruct f as [[]|[]| |[] m e]; intros H; try discriminate H; reflexivity. Qed.

Lemma single_row_kept instance_type reg price heading cleaned hourly per_acc :
  (instance_type =? "") = false -> (price =? "") = false ->
  clean_html (VStr reg) = Ok cleaned -> (cleaned =? "") = false ->
  parse_price_string (VStr price) = Ok (hourly, per_acc) ->
  F64.eqb hourly F64.zero = false ->
  exists f a c,
    parse_pricing_data [text_row instance_type reg price heading]
    = Ok [(VStr instance_type,
           {| instance_family := f; accelerator_type := a; accelerator_count := c;
              pricing := [ {| region := cleaned;
                              region_code := region_code_of cleaned;
                              hourly_rate_usd := hourly;
                              accelerator_hourly_rate_usd := per_acc |} ] |})].
Proof.
  intros Hit Hprice Hclean Hne Hparse Hz.
  pose proof (instance_info_total instance_type) as Ht.
  destruct (instance_info (VStr instance_type)) as [[[f a] c]|] eqn:E; [|discriminate].
  exists f, a, c.
  unfold parse_pricing_data, text_row. cbn [for_each]. unfold add_row.
  cbn [get lookup String.eqb Ascii.eqb Bool.eqb truthy].
  rewrite Hit, Hprice. cbn [negb]. rewrite Hclean. cbn [bind]. rewrite Hne.
  rewrite Hparse. cbn [bind]. rewrite Hz. cbn [hashable append_entry for_each bind].
  unfold add_instance. rewrite E. reflexivity.
Qed.

Lemma single_row_skipped instance_type reg price heading cleaned hourly per_acc :
  (instance_type =? "") = false -> (price =? "") = false ->
  clean_html (VStr reg) = Ok cleaned -> (cleaned =? "") = false ->
  parse_price_string (VStr price) = Ok (hourly, per_acc) ->
  F64.eqb hourly F64.zero = true ->
  parse_pricing_data [text_row instance_type reg price heading] = Ok [].
Proof.
  intros Hit Hprice Hclean Hne Hparse Hz.
  unfold parse_pricing_data, text_row. cbn [for_each]. unfold add_row.
  cbn [get lookup String.eqb Ascii.eqb Bool.eqb truthy].
  rewrite Hit, Hprice. cbn [negb]. rewrite Hclean. cbn [bind]. rewrite Hne.
  rewrite Hparse. cbn [bind]. rewrite Hz. reflexivity.
Qed.

(** C7. Every pricing entry of the output of [parse_pricing_data] has an
    hourly rate that is not zero, and then above zero; a row is dropped
    when its parsed hourly rate is 0.0 and kept otherwise, whatever its
    accelerator rate is, 0.0 included. *)
Theorem hourly_rate_positive :
  (forall json_data instance_types k itp e,
      parse_pricing_data json_data = Ok instance_types ->
      In (k, itp) instance_types -> In e (pricing itp) ->
      F64.eqb (hourly_rate_usd e) F64.zero = false /\
      F64.positive_float (hourly_rate_usd e) = true) /\
  (forall instance_type reg price heading cleaned hourly per_acc,
      (instance_type =? "") = false -> (price =? "") = false ->
      clean_html (VStr reg) = Ok cleaned -> (cleaned =? "") = false ->
      parse_price_string (VStr price) = Ok (hourly, per_acc) ->
      if F64.eqb hourly F64.zero
      then parse_pricing_data [text_row instance_type reg price heading] = Ok []
      else exists f a c,
          parse_pricing_data [text_row instance_type reg price heading]
          = Ok [(VStr instance_type,
                 {| instance_family := f; accelerator_type := a; accelerator_count := c;
                    pricing := [ {| region := cleaned;
                                    region_code := region_code_of cleaned;
                                    hourly_rate_usd := hourly;
                                    accelerator_hourly_rate_usd := per_acc |} ] |})]).
Proof.
  split.
  - intros json_data instance_types k itp e H Hk He.
    apply parse_pricing_data_positive in H.
    rewrite Forall_forall in H. specialize (H _ Hk). simpl in H.
    unfold all_positive in H. rewrite Forall_forall in H. specialize (H _ He).
    split; [now apply positive_nonzero | assumption].
  - intros instance_type reg price heading cleaned hourly per_acc Hit Hp Hc Hne Hparse.
    destruct (F64.eqb hourly F64.zero) eqn:Hz.
    + now apply (single_row_skipped _ _ _ _ cleaned hourly per_acc).
    + now apply single_row_kept.
Qed.

End Normalisation.

(** ** The top level *)

Section TopLevel.

Context {html_text : HtmlText}.

Variable fetch_page : string -> result string.
Variable utc_now : string.

(** C4, as amended. Once the page is fetched and the extraction returned
    its rows, [scrape_pricing] raises the no-data error when there is no
    row; otherwise, once the normalisation returned its map, it raises the
    no-parsed-data error when the map is empty and returns the pricing data
    with this map when it is not; the two errors differ. *)
Theorem scrape_pricing_outcomes html rows :
  fetch_page SOURCE_URL = Ok html ->
  extract_json_data html = Ok rows ->
  match rows with
  | [] => scrape_pricing fetch_page utc_now = Raise no_data
  | _ :: _ =>
      forall instance_types,
        parse_pricing_data rows = Ok instance_types ->
        match instance_types with
        | [] => scrape_pricing fetch_page utc_now = Raise no_parsed_data
        | _ :: _ =>
            scrape_pricing fetch_page utc_now
            = Ok {| metadata := {| last_updated := utc_now;
                                   source_url := SOURCE_URL;
                                   version := VERSION |};
                    instance_types := instance_types |}
        end
  end /\ no_data <> no_parsed_data.
Proof.
  intros Hf He. split; [|discriminate].
  unfold scrape_pricing. rewrite Hf. cbn [bind]. rewrite He. cbn [bind].
  destruct rows as [|r rows]; [reflexivity|].
  intros instance_types Hp. rewrite Hp. cbn [bind].
  now destruct instance_types.
Qed.

End TopLevel.

(** C4, as stated, fails: on a page with two rows, the second priced
    "$, USD", the run ends with the [ValueError] of [float], which is
    neither of the two errors, and no pricing data is returned. *)
Lemma scrape_pricing_third_error :
  (exists r1 r2, extract_json_data comma_price_page = Ok [r1; r2]) /\
  scrape_pricing (fun _ => Ok comma_price_page) "2026-01-01T00:00:00Z"
  = Raise (float_error "") /\
  float_error "" <> no_data /\ float_error "" <> no_parsed_data.
Proof.
  split; [|split; [|split]].
  - eexists; eexists. vm_compute. reflexivity.
  - vm_compute. reflexivity.
  - discriminate.
  - discriminate.
Qed.

Lemma scrape_pricing_outcomes_witness :
  scrape_pricing (fun _ => Ok "<html></html>") "2026-01-01T00:00:00Z" = Raise no_data /\
  scrape_pricing (fun _ => Ok no_price_page) "2026-01-01T00:00:00Z" = Raise no_parsed_data /\
  is_ok (scrape_pricing (fun _ => Ok p5_page) "2026-01-01T00:00:00Z") = true.
Proof.
  split; [|split].
  - exact (proj1 (scrape_pricing_outcomes (fun _ => Ok "<html></html>")
                    "2026-01-01T00:00:00Z" "<html></html>" [] eq_refl eq_refl)).
  - pose proof (scrape_pricing_outcomes (fun _ => Ok no_price_page)
                    "2026-01-01T00:00:00Z" no_price_page _ eq_refl eq_refl) as [H _].
    vm_compute in H. apply (H []). reflexivity.
  - vm_compute. reflexivity.
Defined.

(** ** What the price patterns capture *)













(** ** The fuel of the decoder *)

Lemma skip_ws_length (s : string) : String.length (skip_ws s) <= String.length s.
Proof.
  induction s as [|c s IH]; simpl; [lia|].
  destruct (is_json_ws c); simpl; lia.
Qed.

Lemma skip_ws_cons (s : string) c r :
  skip_ws s = String c r -> String.length r < String.length s.
Proof. intros H. pose proof (skip_ws_length s) as K. rewrite H in K. simpl in K. lia. Qed.

Lemma cons_unit_inv u r us rest :
  cons_unit u r = Some (us, rest) -> exists us', r = Some (us', rest).
Proof. destruct r as [[us' rest']|]; simpl; [|discriminate]. intros H; injection H as _ <-. eauto. Qed.

Lemma scanstring_length n :
  forall s us r, String.length s <= n -> scanstring s = Some (us, r) ->
                 String.length r < String.length s.
Proof.
  induction n as [|n IH]; intros s us r Hn H.
  - destruct s; [discriminate | simpl in Hn; lia].
  - destruct s as [|c rest]; [discriminate|]. simpl in Hn. simpl in H.
    destruct (Ascii.eqb c dq); [injection H as _ <-; simpl; lia|].
    destruct (Ascii.eqb c backslash).
    + destruct rest as [|e rest1]; [discriminate|]. simpl in Hn.
      destruct (Ascii.eqb e "u").
      * destruct rest1 as [|h1 [|h2 [|h3 [|h4 rest2]]]]; try discriminate.
        destruct (hex4 h1 h2 h3 h4); [|discriminate].
        apply cons_unit_inv in H as (us' & H).
        apply IH in H; simpl in *; lia.
      * destruct (simple_escape e); [|discriminate].
        apply cons_unit_inv in H as (us' & H).
        apply IH in H; simpl in *; lia.
    + destruct (_ <? _)%nat; [discriminate|].
      apply cons_unit_inv in H as (us' & H).
      apply IH in H; simpl in *; lia.
Qed.

Lemma span_digits_length (s : string) d r :
  span_digits s = (d, r) -> String.length r <= String.length s.
Proof.
  revert d r; induction s as [|c s IH]; intros d r H; simpl in H.
  - injection H as _ <-. simpl; lia.
  - destruct (is_digit c).
    + destruct (span_digits s) as [d' r'] eqn:E. injection H as _ <-.
      specialize (IH _ _ eq_refl). simpl; lia.
    + injection H as _ <-. lia.
Qed.

Lemma substring_length_le n m (s : string) : String.length (substring n m s) <= m.
Proof.
  revert n m; induction s as [|c s IH]; intros n m.
  - destruct n, m; simpl; lia.
  - destruct n; simpl.
    + destruct m; simpl; [lia|]. specialize (IH 0 m). lia.
    + apply IH.
Qed.

Lemma keywords_length (s : string) v r :
  keywords s = Some (v, r) -> String.length r <= String.length s.
Proof.
  unfold keywords, first_some, keyword.
  repeat match goal with
         | |- context [if startswith ?w s then _ else _] => destruct (startswith w s)
         end; intros H; try discriminate;
    injection H as _ <-; unfold drop;
    match goal with
    | |- String.length (substring ?n ?m s) <= _ => pose proof (substring_length_le n m s); lia
    end.
Qed.

Lemma scan_number_length (s : string) v r :
  scan_number s = Found v r -> String.length r <= String.length s.
Proof.
  unfold scan_number.
  set (p := match s with "" => _ | String _ _ => _ end).
  assert (Hp : String.length (snd p) <= String.length s).
  { subst p. destruct s as [|c s]; simpl; [lia|]. destruct (Ascii.eqb c "-"); simpl; lia. }
  destruct p as [neg s1]. simpl in Hp.
  unfold scan_int. destruct s1 as [|c s1']; [discriminate|].
  set (q := if Ascii.eqb c "0" then _ else _).
  assert (Hq : forall ip s2, q = Some (ip, s2) -> String.length s2 <= String.length (String c s1')).
  { subst q. intros ip s2. destruct (Ascii.eqb c "0").
    - intros H; injection H as _ <-. simpl; lia.
    - destruct (is_digit c) eqn:Hc; [|discriminate]. intros H; injection H as H.
      apply (span_digits_length (String c s1') ip s2). simpl. rewrite Hc in H |- *. exact H. }
  destruct q as [[ip s2]|]; [|discriminate]. specialize (Hq _ _ eq_refl).
  assert (Hf : String.length (snd (scan_frac s2)) <= String.length s2).
  { unfold scan_frac. destruct s2 as [|c2 s2']; simpl; [lia|].
    destruct (Ascii.eqb c2 "."); simpl; [|lia].
    destruct (span_digits s2') as [d r'] eqn:E. apply span_digits_length in E.
    destruct d; simpl; lia. }
  destruct (scan_frac s2) as [fp s3]. simpl in Hf.
  assert (He : String.length (snd (scan_exp s3)) <= String.length s3).
  { unfold scan_exp. destruct s3 as [|c3 s3']; simpl; [lia|].
    destruct (_ || _); simpl; [|lia].
    set (t := match s3' with "" => _ | String _ _ => _ end).
    assert (Ht : String.length (snd t) <= String.length s3').
    { subst t. destruct s3' as [|g t']; simpl; [lia|].
      destruct (Ascii.eqb g "-"); simpl; [lia|]. destruct (Ascii.eqb g "+"); simpl; lia. }
    destruct t as [sg s'']. simpl in Ht.
    destruct (span_digits s'') as [d r'] eqn:E. apply span_digits_length in E.
    destruct d; simpl; lia. }
  destruct (scan_exp s3) as [ex s4]. simpl in He.
  destruct fp, ex; try (intros H; injection H as _ <-; lia).
  destruct (_ <? _)%nat; [discriminate|]. intros H; injection H as _ <-; lia.
Qed.

(** What is left after a value is no longer than what was scanned. *)
Lemma scan_length f :
  (forall s v r, scan_once f s = Found v r -> String.length r <= String.length s) /\
  (forall d s v r, members f d s = Found v r -> String.length r <= String.length s) /\
  (forall acc s v r, elements f acc s = Found v r -> String.length r <= String.length s).
Proof.
  induction f as [|f (IHs & IHm & IHe)]; [repeat split; intros; discriminate|].
  repeat split.
  - intros s v r H. destruct s as [|c rest]; [discriminate|]. simpl in H.
    destruct (Ascii.eqb c dq).
    { destruct (scanstring rest) as [[us r']|] eqn:E; [|discriminate].
      injection H as _ <-. apply (scanstring_length _ _ _ _ (le_n _)) in E. simpl; lia. }
    destruct (Ascii.eqb c "{").
    { destruct (skip_ws rest) as [|c1 r1] eqn:E; [discriminate|].
      pose proof (skip_ws_cons _ _ _ E).
      destruct (Ascii.eqb c1 "}"); [injection H as _ <-; simpl; lia|].
      apply IHm in H. simpl in *; lia. }
    destruct (Ascii.eqb c "[").
    { destruct (skip_ws rest) as [|c1 r1] eqn:E; [discriminate|].
      pose proof (skip_ws_cons _ _ _ E).
      destruct (Ascii.eqb c1 "]"); [injection H as _ <-; simpl; lia|].
      apply IHe in H. simpl in *; lia. }
    destruct (keywords (String c rest)) as [[v' r']|] eqn:E.
    { injection H as _ <-. now apply keywords_length in E. }
    now apply scan_number_length in H.
  - intros d s v r H. destruct s as [|c rest]; [discriminate|]. simpl in H.
    destruct (Ascii.eqb c dq); [|discriminate].
    destruct (scanstring rest) as [[us r1]|] eqn:E1; [|discriminate].
    apply (scanstring_length _ _ _ _ (le_n _)) in E1.
    destruct (skip_ws r1) as [|c2 r2] eqn:E2; [discriminate|].
    pose proof (skip_ws_cons _ _ _ E2).
    destruct (Ascii.eqb c2 ":"); [|discriminate].
    pose proof (skip_ws_length r2).
    destruct (scan_once f (skip_ws r2)) as [v3 r3| |n] eqn:E3; try discriminate.
    apply IHs in E3.
    destruct (skip_ws r3) as [|c4 r4] eqn:E4; [discriminate|].
    pose proof (skip_ws_cons _ _ _ E4).
    destruct (Ascii.eqb c4 "}"); [injection H as _ <-; simpl; lia|].
    destruct (Ascii.eqb c4 ","); [|discriminate].
    apply IHm in H. pose proof (skip_ws_length r4). simpl; lia.
  - intros acc s v r H. simpl in H.
    destruct (scan_once f s) as [v1 r1| |n] eqn:E1; try discriminate.
    apply IHs in E1.
    destruct (skip_ws r1) as [|c2 r2] eqn:E2; [discriminate|].
    pose proof (skip_ws_cons _ _ _ E2).
    destruct (Ascii.eqb c2 "]"); [injection H as _ <-; simpl; lia|].
    destruct (Ascii.eqb c2 ","); [|discriminate].
    apply IHe in H. pose proof (skip_ws_length r2). lia.
Qed.

(** Twice the length of the text, and one or two more, is fuel enough:
    more fuel gives the same result. *)
Lemma fuel_enough f :
  (forall g s, 2 * String.length s + 1 <= f -> f <= g -> scan_once g s = scan_once f s) /\
  (forall g d s, 2 * String.length s + 2 <= f -> f <= g -> members g d s = members f d s) /\
  (forall g acc s, 2 * String.length s + 2 <= f -> f <= g ->
                   elements g acc s = elements f acc s).
Proof.
  induction f as [|f (IHs & IHm & IHe)]; [repeat split; intros; lia|].
  repeat split.
  - intros g s Hf Hg. destruct g as [|g]; [lia|].
    destruct s as [|c rest]; [reflexivity|]. simpl in Hf. simpl.
    destruct (Ascii.eqb c dq); [reflexivity|].
    destruct (Ascii.eqb c "{").
    { destruct (skip_ws rest) as [|c1 r1] eqn:E; [reflexivity|].
      pose proof (skip_ws_cons _ _ _ E).
      destruct (Ascii.eqb c1 "}"); [reflexivity|].
      apply IHm; simpl; lia. }
    destruct (Ascii.eqb c "[").
    { destruct (skip_ws rest) as [|c1 r1] eqn:E; [reflexivity|].
      pose proof (skip_ws_cons _ _ _ E).
      destruct (Ascii.eqb c1 "]"); [reflexivity|].
      apply IHe; simpl; lia. }
    reflexivity.
  - intros g d s Hf Hg. destruct g as [|g]; [lia|].
    destruct s as [|c rest]; [reflexivity|]. simpl in Hf. simpl.
    destruct (Ascii.eqb c dq); [|reflexivity].
    destruct (scanstring rest) as [[us r1]|] eqn:E1; [|reflexivity].
    apply (scanstring_length _ _ _ _ (le_n _)) in E1.
    destruct (skip_ws r1) as [|c2 r2] eqn:E2; [reflexivity|].
    pose proof (skip_ws_cons _ _ _ E2).
    destruct (Ascii.eqb c2 ":"); [|reflexivity].
    pose proof (skip_ws_length r2).
    rewrite (IHs g (skip_ws r2)) by lia.
    destruct (scan_once f (skip_ws r2)) as [v3 r3| |n] eqn:E3; try reflexivity.
    apply (proj1 (scan_length f)) in E3.
    destruct (skip_ws r3) as [|c4 r4] eqn:E4; [reflexivity|].
    pose proof (skip_ws_cons _ _ _ E4).
    destruct (Ascii.eqb c4 "}"); [reflexivity|].
    destruct (Ascii.eqb c4 ","); [|reflexivity].
    pose proof (skip_ws_length r4).
    apply IHm; lia.
  - intros g acc s Hf Hg. destruct g as [|g]; [lia|]. simpl.
    rewrite (IHs g s) by lia.
    destruct (scan_once f s) as [v1 r1| |n] eqn:E1; try reflexivity.
    apply (proj1 (scan_length f)) in E1.
    destruct (skip_ws r1) as [|c2 r2] eqn:E2; [reflexivity|].
    pose proof (skip_ws_cons _ _ _ E2).
    destruct (Ascii.eqb c2 "]"); [reflexivity|].
    destruct (Ascii.eqb c2 ","); [|reflexivity].
    pose proof (skip_ws_length r2).
    apply IHe; lia.
Qed.

(** [loads] does not depend on its fuel: with any larger amount the scan of
    the whole text is the same. *)
Lemma loads_fuel (s : string) k :
  scan_once (2 * String.length s + 2 + k) (skip_ws s)
  = scan_once (2 * String.length s + 2) (skip_ws s).
Proof.
  pose proof (skip_ws_length s).
  apply (proj1 (fuel_enough _)); lia.
Qed.

(** ** The theorems at concrete inputs *)


Lemma instance_info_resolution_witness :
  instance_info (VStr "p5.48xlarge") = Ok ("P5", "H100", 8%Z) /\
  (exists a c, instance_info (VStr "p5en.24xlarge") = Ok ("P5en", a, c)) /\
  (exists a c, instance_info (VStr "p5e.24xlarge") = Ok ("P5e", a, c)) /\
  (exists a c, instance_info (VStr "p6-b300.24xlarge") = Ok ("P6-B300", a, c)) /\
  instance_info (VStr "p6.48xlarge") = Ok ("Unknown", "Unknown", 0%Z).
Proof.
  split; [|split; [|split; [|split]]].
  - destruct (instance_info_resolution "p5.48xlarge") as (_ & K & _).
    exact (K _ eq_refl).
  - destruct (instance_info_resolution "p5en.24xlarge") as (_ & _ & _ & K & _).
    exact (K eq_refl).
  - destruct (instance_info_resolution "p5e.24xlarge") as (_ & _ & _ & _ & K & _).
    exact (K eq_refl eq_refl).
  - destruct (instance_info_resolution "p6-b300.24xlarge")
      as (_ & _ & _ & _ & _ & _ & K & _).
    exact (K eq_refl).
  - destruct (instance_info_resolution "p6.48xlarge")
      as (_ & _ & _ & _ & _ & _ & _ & _ & K).
    exact (proj2 K (conj eq_refl eq_refl)).
Defined.

Lemma only_exact_script_tag_witness :
  extract_json_data "<html><script>var x = 1;</script></html>" = Ok [] /\
  contains (OPEN_TAG ++ p5_body ++ "</script>") p5_page = true.
Proof.
  destruct only_exact_script_tag as (A & B & _).
  split.
  - exact (A "<html><script>var x = 1;</script></html>" eq_refl).
  - apply (B p5_page p5_body). vm_compute. left. reflexivity.
Defined.

Lemma only_pricing_headings_witness :
  table_rows [] (VDict [("heading", VStr "Feature Comparison")]) = Ok [] /\
  py_in "Pricing"
    (get (text_row "p5.48xlarge" "US East (N. Virginia)" "$31.464 USD ($3.933 USD)"
            (VStr "P5 Instance Pricing")) "heading" (VStr ""))
  = Ok true.
Proof.
  destruct only_pricing_headings as (A & B & _).
  split.
  - exact (A [] (VDict [("heading", VStr "Feature Comparison")]) "Feature Comparison"
             eq_refl eq_refl).
  - apply (B p5_page
             [text_row "p5.48xlarge" "US East (N. Virginia)" "$31.464 USD ($3.933 USD)"
                (VStr "P5 Instance Pricing")]).
    + vm_compute. reflexivity.
    + left. reflexivity.
Defined.

Lemma hourly_rate_positive_witness :
  (exists f a c,
      parse_pricing_data
        [text_row "p5.48xlarge" "US East (Ohio)" "$12.50 USD" (VStr "P5 Instance Pricing")]
      = Ok [(VStr "p5.48xlarge",
             {| instance_family := f; accelerator_type := a; accelerator_count := c;
                pricing := [ {| region := "US East (Ohio)";
                                region_code := "us-east-2";
                                hourly_rate_usd := decimal_float false 1250 (-2);
                                accelerator_hourly_rate_usd := F64.zero |} ] |})]) /\
  parse_pricing_data
    [text_row "p5.48xlarge" "US East (Ohio)" "$0.00 USD ($3.933 USD)"
       (VStr "P5 Instance Pricing")] = Ok [] /\
  F64.positive_float (decimal_float false 1250 (-2)) = true.
Proof.
  destruct (hourly_rate_positive (html_text := plain_html)) as (A & B).
  split; [|split].
  - exact (B "p5.48xlarge" "US East (Ohio)" "$12.50 USD" (VStr "P5 Instance Pricing")
             "US East (Ohio)" (decimal_float false 1250 (-2)) F64.zero
             eq_refl eq_refl eq_refl eq_refl eq_refl).
  - exact (B "p5.48xlarge" "US East (Ohio)" "$0.00 USD ($3.933 USD)"
             (VStr "P5 Instance Pricing")
             "US East (Ohio)" F64.zero (decimal_float false 3933 (-3))
             eq_refl eq_refl eq_refl eq_refl eq_refl).
  - refine (proj2 (A [text_row "p5.48xlarge" "US East (Ohio)" "$12.50 USD"
                        (VStr "P5 Instance Pricing")]
                     _ (VStr "p5.48xlarge") _
                     {| region := "US East (Ohio)";
                        region_code := "us-east-2";
                        hourly_rate_usd := decimal_float false 1250 (-2);
                        accelerator_hourly_rate_usd := F64.zero |}
                     eq_refl (or_introl eq_refl) (or_introl eq_refl))).
Defined.

(** * Further properties

    What the code does beyond the statements above: the cleaner and the
    price parser on every input, the shape and the order of the extracted
    rows, the structure of the normalised data, the scan for scripts and
    the counts of a run. *)

Import Texts Rows Report Samples.

(** ** The cleaner *)

Lemma rstrip_idem (s : string) : rstrip (rstrip s) = rstrip s.
Proof.
  induction s as [|c s IH]; simpl; [reflexivity|].
  destruct (rstrip s) as [|d r] eqn:E.
  - destruct (is_space c) eqn:Hc; simpl; [reflexivity | now rewrite Hc].
  - simpl in IH. simpl. rewrite IH. reflexivity.
Qed.

Lemma lstrip_head_not_space (s : string) c t :
  lstrip s = String c t -> is_space c = false.
Proof.
  induction s as [|x s IH]; simpl; [discriminate|].
  destruct (is_space x) eqn:E; [assumption|].
  intros H; injection H as <- _. exact E.
Qed.

Lemma rstrip_keeps_head c (s : string) :
  is_space c = false -> exists r, rstrip (String c s) = String c r.
Proof.
  intros H; simpl. destruct (rstrip s); [rewrite H|]; eauto.
Qed.

Lemma strip_idem (s : string) : strip (strip s) = strip s.
Proof.
  unfold strip. destruct (lstrip s) as [|c t] eqn:E; [reflexivity|].
  pose proof (lstrip_head_not_space _ _ _ E) as Hc.
  destruct (rstrip_keeps_head c t Hc) as [r Hr]. rewrite Hr.
  rewrite (lstrip_head _ _ Hc), <- Hr. apply rstrip_idem.
Qed.

Section Cleaner.

Context {html_text : HtmlText}.

Lemma clean_html_trimmed v s : clean_html v = Ok s -> strip s = s.
Proof.
  unfold clean_html. destruct (truthy v); simpl.
  - destruct v; try discriminate. intros H; injection H as <-. apply strip_idem.
  - intros H; injection H as <-. reflexivity.
Qed.


(** X2. On a region name that [clean_html] returned, the second lookup of
    [parse_pricing_data] (with the name stripped) never finds a code that
    the first one missed: the region code is the code of the table for
    the name, and the text [unknown] when the table has no such name. *)
Theorem region_retry_never_succeeds v reg :
  clean_html v = Ok reg ->
  region_code_of reg =
  match lookup reg REGION_NAME_TO_CODE with
  | Some code => code
  | None => "unknown"
  end.
Proof.
  intros H. apply clean_html_trimmed in H. unfold region_code_of. rewrite H.
  destruct (lookup reg REGION_NAME_TO_CODE) as [c|] eqn:E; [|reflexivity].
  now rewrite (region_codes_nonempty _ _ E).
Qed.

End Cleaner.

(** ** The price parser: signs and errors *)




Lemma match_price_nonneg_both s h a :
  match_price s = Ok (h, a) -> F64.is_nonneg h = true /\ F64.is_nonneg a = true.
Proof.
  intros H. split; [now apply match_price_nonneg in H|].
  unfold match_price in H.
  destruct (search pattern s) as [[caps rest]|].
  - destruct (py_float (remove_char "," (group caps 1))); [|discriminate]. simpl in H.
    destruct (py_float (remove_char "," (group caps 2))) as [x|] eqn:E; [|discriminate].
    simpl in H. injection H as _ <-. now apply py_float_nonneg in E.
  - destruct (search single_pattern s) as [[caps rest]|].
    + destruct (py_float (remove_char "," (group caps 1))); [|discriminate].
      simpl in H. now injection H as _ <-.
    + now injection H as _ <-.
Qed.

Section PriceErrors.

Context {html_text : HtmlText}.

(** X3. [parse_price_string] never returns a negative rate, a negative
    zero or a NaN: both rates are a positive zero, a positive finite
    float or positive infinity. *)
Theorem parse_price_string_never_negative v hourly per_acc :
  parse_price_string v = Ok (hourly, per_acc) ->
  F64.is_nonneg hourly = true /\ F64.is_nonneg per_acc = true.
Proof.
  unfold parse_price_string. intros H.
  apply bind_ok in H as (s & _ & H). now apply match_price_nonneg_both in H.
Qed.


End PriceErrors.

(** ** Price texts with optional dollar signs and any white space *)















Section PriceTexts.

Context {html_text : HtmlText}.




End PriceTexts.

(** ** The rows of the extraction *)

Lemma for_each_app {A S : Type} (body : S -> A -> result S) l1 l2 s :
  for_each body (l1 ++ l2) s = (s' <- for_each body l1 s ;; for_each body l2 s').
Proof.
  revert s; induction l1 as [|x l1 IH]; intros s; simpl; [reflexivity|].
  destruct (body s x); simpl; [apply IH | reflexivity].
Qed.

Lemma for_each_appends {A : Type} (body : list row -> A -> result (list row)) :
  appends body ->
  forall l acc, for_each body l acc = (new <- for_each body l [] ;; Ok (acc ++ new)).
Proof.
  intros Hb; induction l as [|x l IH]; intros acc; simpl.
  - now rewrite app_nil_r.
  - rewrite (Hb acc x). destruct (body [] x) as [n|e]; simpl; [|reflexivity].
    rewrite (IH (acc ++ n)), (IH n).
    destruct (for_each body l []) as [m|e]; simpl; [|reflexivity].
    now rewrite app_assoc.
Qed.

Lemma table_item_row_appends row_labels heading :
  appends (table_item_row row_labels heading).
Proof.
  intros acc x. unfold table_item_row.
  destruct (dict_get x "idProperty" (VStr "")) as [row_id|]; simpl; [|reflexivity].
  destruct (hashable row_id); simpl; [|reflexivity].
  destruct (dict_get x "2" (VStr "")) as [rg|]; simpl; [|reflexivity].
  destruct (dict_get x "3" (VStr "")) as [p|]; simpl; [|reflexivity].
  destruct (truthy _ && truthy rg && truthy p); simpl; [reflexivity|].
  now rewrite app_nil_r.
Qed.

Lemma table_rows_appends : appends table_rows.
Proof.
  intros acc x. unfold table_rows.
  destruct (dict_get x "heading" (VStr "")) as [heading|]; simpl; [|reflexivity].
  destruct (py_in "Pricing" heading) as [b|]; simpl; [|reflexivity].
  destruct b; simpl; [|now rewrite app_nil_r].
  destruct (dict_get x "table" (VDict [])) as [table|]; simpl; [|reflexivity].
  destruct (dict_get table "rowDefinitions" (VList [])) as [defs|]; simpl; [|reflexivity].
  destruct (dict_get table "items" (VList [])) as [its|]; simpl; [|reflexivity].
  destruct (iter defs) as [ds|]; simpl; [|reflexivity].
  destruct (for_each add_label ds []) as [labels|]; simpl; [|reflexivity].
  destruct (iter its) as [tis|]; simpl; [|reflexivity].
  apply for_each_appends, table_item_row_appends.
Qed.

Lemma item_rows_appends : appends item_rows.
Proof.
  intros acc x. unfold item_rows.
  destruct (dict_get x "fields" (VDict [])) as [fields|]; simpl; [|reflexivity].
  destruct (dict_get fields "jsonData" (VStr "")) as [j|]; simpl; [|reflexivity].
  destruct (truthy j); simpl; [|now rewrite app_nil_r].
  destruct (json_loads j) as [[table_data|]|]; simpl;
    [apply table_rows_appends | now rewrite app_nil_r | reflexivity].
Qed.

Lemma script_rows_appends : appends script_rows.
Proof.
  intros acc x. unfold script_rows.
  destruct (loads x) as [[outer_data|]|]; simpl; [|now rewrite app_nil_r | reflexivity].
  destruct (dict_get outer_data "data" (VDict [])) as [data|]; simpl; [|reflexivity].
  destruct (dict_get data "items" (VList [])) as [items|]; simpl; [|reflexivity].
  destruct (iter items) as [its|]; simpl; [|reflexivity].
  apply for_each_appends, item_rows_appends.
Qed.

(** X6. Extraction only ever appends: the rows of a script are added
    behind the rows collected so far, whatever these are, and a page whose
    scripts are those of a first page followed by those of a second one
    yields the rows of the first followed by the rows of the second, or
    the first exception that either raises. *)
Theorem extract_json_data_concatenates :
  (forall all_rows script_content,
      script_rows all_rows script_content
      = (new <- script_rows [] script_content ;; Ok (all_rows ++ new))) /\
  (forall html html1 html2,
      script_matches html = script_matches html1 ++ script_matches html2 ->
      extract_json_data html
      = (rows1 <- extract_json_data html1 ;;
         rows2 <- extract_json_data html2 ;;
         Ok (rows1 ++ rows2))).
Proof.
  split; [exact script_rows_appends|].
  intros html html1 html2 H. unfold extract_json_data. rewrite H, for_each_app.
  destruct (for_each script_rows (script_matches html1) []) as [rows1|]; simpl;
    [|reflexivity].
  apply for_each_appends, script_rows_appends.
Qed.

Lemma table_item_row_extracted row_labels heading all_rows table_item rows' :
  Forall extracted_row all_rows ->
  table_item_row row_labels heading all_rows table_item = Ok rows' ->
  Forall extracted_row rows'.
Proof.
  intros Hall H. unfold table_item_row in H.
  apply bind_ok in H as (row_id & _ & H).
  apply bind_ok in H as (instance_type & _ & H).
  apply bind_ok in H as (reg & _ & H).
  apply bind_ok in H as (price & _ & H).
  destruct (truthy instance_type && truthy reg && truthy price) eqn:E;
    injection H as <-; [|assumption].
  apply andb_prop in E as [E Hp]. apply andb_prop in E as [Hi Hr].
  apply Forall_app; split; [assumption|].
  constructor; [|constructor].
  now exists instance_type, reg, price, heading.
Qed.

Lemma table_rows_extracted all_rows table_data rows' :
  Forall extracted_row all_rows ->
  table_rows all_rows table_data = Ok rows' ->
  Forall extracted_row rows'.
Proof.
  intros Hall H. unfold table_rows in H.
  apply bind_ok in H as (heading & _ & H).
  apply bind_ok in H as (is_pricing & Hp & H).
  destruct is_pricing; simpl in H; [|now injection H as <-].
  apply bind_ok in H as (table & _ & H).
  apply bind_ok in H as (row_definitions & _ & H).
  apply bind_ok in H as (table_items & _ & H).
  apply bind_ok in H as (defs & _ & H).
  apply bind_ok in H as (row_labels & _ & H).
  apply bind_ok in H as (its & _ & H).
  revert H. apply for_each_invariant; [|assumption].
  intros s x s' _ Hs. now apply table_item_row_extracted.
Qed.

Lemma item_rows_extracted all_rows item rows' :
  Forall extracted_row all_rows ->
  item_rows all_rows item = Ok rows' ->
  Forall extracted_row rows'.
Proof.
  intros Hall H. unfold item_rows in H.
  apply bind_ok in H as (fields & _ & H).
  apply bind_ok in H as (json_data_str & _ & H).
  destruct (truthy json_data_str); simpl in H; [|now injection H as <-].
  apply bind_ok in H as (decoded & _ & H).
  destruct decoded as [table_data|]; [|now injection H as <-].
  now apply (table_rows_extracted all_rows table_data).
Qed.

Lemma script_rows_extracted all_rows script_content rows' :
  Forall extracted_row all_rows ->
  script_rows all_rows script_content = Ok rows' ->
  Forall extracted_row rows'.
Proof.
  intros Hall H. unfold script_rows in H.
  apply bind_ok in H as (decoded & _ & H).
  destruct decoded as [outer_data|]; [|now injection H as <-].
  apply bind_ok in H as (data & _ & H).
  apply bind_ok in H as (items & _ & H).
  apply bind_ok in H as (its & _ & H).
  revert H. apply for_each_invariant; [|assumption].
  intros s x s' _ Hs. now apply item_rows_extracted.
Qed.

(** X7. Every row that [extract_json_data] returns has exactly the keys
    instance_type, region, price and heading, in this order, and its
    instance type, region and price are true in a test: no row with an
    empty field is passed on. *)
Theorem extract_json_data_rows html rows r :
  extract_json_data html = Ok rows -> In r rows -> extracted_row r.
Proof.
  intros H Hr. unfold extract_json_data in H.
  assert (K : Forall extracted_row rows).
  { revert H. apply for_each_invariant; [|constructor].
    intros s x s' _ Hs. now apply script_rows_extracted. }
  rewrite Forall_forall in K. now apply K.
Qed.

(** ** Row labels *)

Lemma key_eqb_str_r x s : key_eqb x (VStr s) = true -> x = VStr s.
Proof.
  destruct x as [|b|z|f|t|l|d]; simpl; try discriminate.
  intros H. apply String.eqb_eq in H. now subst.
Qed.

Lemma key_eqb_str_l x s : key_eqb (VStr s) x = true -> x = VStr s.
Proof.
  destruct x; simpl; try discriminate.
  intros H. apply String.eqb_eq in H. now subst.
Qed.

Lemma key_eqb_str_refl s : key_eqb (VStr s) (VStr s) = true.
Proof. simpl. apply String.eqb_refl. Qed.

Lemma vdict_get_set_same {A : Type} s (v : A) d :
  vdict_get (VStr s) (vdict_set (VStr s) v d) = Some v.
Proof.
  induction d as [|[k' v'] d IH]; simpl.
  - now rewrite String.eqb_refl.
  - destruct (key_eqb k' (VStr s)) eqn:E; simpl; rewrite E; [reflexivity | exact IH].
Qed.

Lemma vdict_get_set_other {A : Type} s k (v : A) d :
  k <> VStr s -> vdict_get (VStr s) (vdict_set k v d) = vdict_get (VStr s) d.
Proof.
  intros Hk; induction d as [|[k' v'] d IH]; simpl.
  - destruct (key_eqb k (VStr s)) eqn:E; [|reflexivity].
    now apply key_eqb_str_r in E.
  - destruct (key_eqb k' k) eqn:E; simpl.
    + destruct (key_eqb k' (VStr s)) eqn:E'; [|reflexivity].
      apply key_eqb_str_r in E'. subst k'. now apply key_eqb_str_l in E.
    + now rewrite IH.
Qed.

Lemma add_label_other labels r labels' s :
  add_label labels r = Ok labels' ->
  subscript r "id" <> Ok (VStr s) ->
  vdict_get (VStr s) labels' = vdict_get (VStr s) labels.
Proof.
  unfold add_label. intros H Hid.
  destruct (subscript r "id") as [k|]; simpl in H; [|discriminate].
  destruct (dict_get r "label" (VStr "")) as [v|]; simpl in H; [|discriminate].
  destruct (hashable k); [|discriminate]. injection H as <-.
  apply vdict_get_set_other. congruence.
Qed.

(** X8. When several row definitions of a table share an id, the label of
    the last one is used; and an item whose idProperty is the id of no row
    definition adds no row. *)
Theorem last_row_definition_wins :
  (forall pre d post k row_labels,
      for_each add_label (pre ++ [VDict d] ++ post) [] = Ok row_labels ->
      lookup "id" d = Some (VStr k) ->
      (forall r, In r post -> subscript r "id" <> Ok (VStr k)) ->
      vdict_get (VStr k) row_labels = Some (get d "label" (VStr ""))) /\
  (forall row_labels heading all_rows item,
      hashable (get item "idProperty" (VStr "")) = true ->
      vdict_get (get item "idProperty" (VStr "")) row_labels = None ->
      table_item_row row_labels heading all_rows (VDict item) = Ok all_rows).
Proof.
  split.
  - intros pre d post k row_labels H Hid Hpost.
    rewrite for_each_app in H. apply bind_ok in H as (l0 & _ & H).
    rewrite for_each_app in H. apply bind_ok in H as (l1 & H1 & H).
    simpl in H1. unfold add_label in H1. simpl in H1. rewrite Hid in H1. simpl in H1.
    injection H1 as <-.
    assert (K : vdict_get (VStr k) row_labels = Some (get d "label" (VStr ""))).
    { revert H.
      apply (for_each_invariant
               (fun l => vdict_get (VStr k) l = Some (get d "label" (VStr "")))).
      - intros s x s' Hx Hs Hadd.
        rewrite (add_label_other _ _ _ _ Hadd (Hpost _ Hx)). exact Hs.
      - apply vdict_get_set_same. }
    exact K.
  - intros row_labels heading all_rows item Hh Hg. unfold table_item_row.
    simpl. rewrite Hh, Hg. reflexivity.
Qed.

(** ** The inference rules *)

Lemma infer_agrees_with_table s i :
  lookup s INSTANCE_TYPE_INFO = Some i ->
  _infer_instance_info (VStr s) = Ok (family i, accelerator i, count i).
Proof.
  intros E. apply lookup_In in E. unfold INSTANCE_TYPE_INFO in E. simpl in E.
  repeat (destruct E as [E|E]; [injection E as <- <-; vm_compute; reflexivity|]).
  destruct E.
Qed.


Lemma starts_p4de_p4d s : startswith "p4de" s = true -> startswith "p4d" s = true.
Proof. intros H; apply startswith_inv in H as [t ->]. reflexivity. Qed.

(** X10. The triple that [_infer_instance_info] returns under each prefix
    rule: the order of the tests matters only among p5en, p5e, p5 and
    among p4de, p4d, where the longer prefix wins; the count of p5 and
    trn2 depends on whether the name holds 48xlarge, the count of u-p6e on
    whether it holds x72 or x36. *)
Theorem inference_by_longest_prefix (s : string) :
  (startswith "p5en" s = true ->
   _infer_instance_info (VStr s) = Ok ("P5en", "H200", 8%Z)) /\
  (startswith "p5e" s = true -> startswith "p5en" s = false ->
   _infer_instance_info (VStr s) = Ok ("P5e", "H200", 8%Z)) /\
  (startswith "p5" s = true -> startswith "p5e" s = false ->
   _infer_instance_info (VStr s)
   = Ok ("P5", "H100", if contains "48xlarge" s then 8%Z else 1%Z)) /\
  (startswith "p6-b300" s = true ->
   _infer_instance_info (VStr s) = Ok ("P6-B300", "B300", 8%Z)) /\
  (startswith "p6-b200" s = true ->
   _infer_instance_info (VStr s) = Ok ("P6-B200", "B200", 8%Z)) /\
  (startswith "u-p6e" s = true ->
   _infer_instance_info (VStr s)
   = Ok ("P6e", "GB200",
         if contains "x72" s then 72%Z else if contains "x36" s then 36%Z else 0%Z)) /\
  (startswith "p4de" s = true ->
   _infer_instance_info (VStr s) = Ok ("P4de", "A100", 8%Z)) /\
  (startswith "p4d" s = true -> startswith "p4de" s = false ->
   _infer_instance_info (VStr s) = Ok ("P4d", "A100", 8%Z)) /\
  (startswith "trn2" s = true ->
   _infer_instance_info (VStr s)
   = Ok ("Trn2", "Trainium2", if contains "48xlarge" s then 16%Z else 1%Z)) /\
  (startswith "trn1" s = true ->
   _infer_instance_info (VStr s) = Ok ("Trn1", "Trainium", 16%Z)).
Proof.
  unfold _infer_instance_info.
  repeat split.
  - intros H. now rewrite H.
  - intros H N. now rewrite N, H.
  - intros H N.
    assert (N' : startswith "p5en" s = false).
    { destruct (startswith "p5en" s) eqn:K; [|reflexivity].
      apply starts_p5en_p5e in K. congruence. }
    now rewrite N', N, H.
  - intros H. do 3 other_prefix H. now rewrite H.
  - intros H. do 4 other_prefix H. now rewrite H.
  - intros H. do 5 other_prefix H. rewrite H.
    destruct (contains "x72" s); [reflexivity|]. now destruct (contains "x36" s).
  - intros H. do 6 other_prefix H. now rewrite H.
  - intros H N. do 6 other_prefix H. now rewrite N, H.
  - intros H. do 8 other_prefix H. now rewrite H.
  - intros H. do 9 other_prefix H. now rewrite H.
Qed.

(** ** The two loops of the normalisation *)

Section Grouping.

Context {html_text : HtmlText}.

Lemma add_row_entry acc r :
  add_row acc r =
  (o <- row_entry r ;;
   Ok (match o with
       | Some (k, e) => append_entry k e acc
       | None => acc
       end)).
Proof.
  unfold add_row, row_entry.
  destruct (negb (truthy (get r "instance_type" (VStr "")))); [reflexivity|].
  destruct (clean_html (get r "region" (VStr ""))) as [reg|]; simpl; [|reflexivity].
  destruct (reg =? ""); [reflexivity|].
  destruct (negb (truthy (get r "price" (VStr "")))); [reflexivity|].
  destruct (parse_price_string (get r "price" (VStr ""))) as [[hourly per_acc]|]; simpl;
    [|reflexivity].
  destruct (F64.eqb hourly F64.zero); [reflexivity|].
  now destruct (hashable (get r "instance_type" (VStr ""))).
Qed.

Lemma first_loop rows :
  forall acc,
    for_each add_row rows acc = (kes <- entries_of rows ;; Ok (grouped kes acc)).
Proof.
  induction rows as [|r rows IH]; intros acc; simpl; [reflexivity|].
  rewrite add_row_entry.
  destruct (row_entry r) as [o|]; simpl; [|reflexivity].
  rewrite IH. destruct (entries_of rows) as [rest|]; simpl; [|reflexivity].
  unfold grouped. rewrite fold_left_app. now destruct o as [[k e]|].
Qed.

End Grouping.

Lemma group_get_append s k e d :
  group_get (VStr s) (append_entry k e d)
  = group_get (VStr s) d ++ (if key_eqb k (VStr s) then [e] else []).
Proof.
  unfold group_get. induction d as [|[k' es] d IH]; simpl.
  - now destruct (key_eqb k (VStr s)).
  - destruct (key_eqb k' k) eqn:E; simpl.
    + destruct (key_eqb k' (VStr s)) eqn:E'.
      * apply key_eqb_str_r in E'. subst k'. apply key_eqb_str_l in E. subst k.
        now rewrite key_eqb_str_refl.
      * destruct (key_eqb k (VStr s)) eqn:E''; [|now rewrite app_nil_r].
        apply key_eqb_str_r in E''. subst k.
        destruct k'; simpl in E; try discriminate.
        simpl in E'. congruence.
    + destruct (key_eqb k' (VStr s)) eqn:E'; [|exact IH].
      destruct (key_eqb k (VStr s)) eqn:E''; [|now rewrite app_nil_r].
      apply key_eqb_str_r in E', E''. subst. now rewrite key_eqb_str_refl in E.
Qed.

Lemma group_get_grouped s kes :
  forall d, group_get (VStr s) (grouped kes d) = group_get (VStr s) d ++ entries_for s kes.
Proof.
  unfold grouped, entries_for.
  induction kes as [|[k e] kes IH]; intros d; simpl; [now rewrite app_nil_r|].
  rewrite IH, group_get_append. rewrite <- app_assoc.
  now destruct (key_eqb k (VStr s)).
Qed.

(** ** The second loop *)

Lemma key_eqb_float_refl f : key_eqb (VFloat f) (VFloat f) = true.
Proof.
  destruct f as [s|s| |s m e]; simpl; try reflexivity; unfold F64.eqb, SFeqb, SFcompare.
  - now destruct s.
  - rewrite Z.compare_refl.
    change (PosDef.Pos.compare_cont Eq m m) with (Pos.compare m m).
    rewrite Pos.compare_refl. now destruct s.
Qed.

Lemma key_eqb_refl k : hashable k = true -> key_eqb k k = true.
Proof.
  destruct k; simpl; try discriminate; intros _; try reflexivity.
  - apply Z.eqb_refl.
  - apply Z.eqb_refl.
  - apply key_eqb_float_refl.
  - apply String.eqb_refl.
Qed.

Lemma existsb_key_In (k : value) keys :
  hashable k = true -> In k keys -> existsb (fun k' => key_eqb k' k) keys = true.
Proof.
  intros Hk Hin. apply existsb_exists. exists k. split; [assumption|].
  now apply key_eqb_refl.
Qed.

Lemma append_entry_keys k e d :
  map fst (append_entry k e d)
  = if existsb (fun k' => key_eqb k' k) (map fst d) then map fst d else map fst d ++ [k].
Proof.
  induction d as [|[k' es] d IH]; simpl; [reflexivity|].
  destruct (key_eqb k' k); simpl; [reflexivity|].
  rewrite IH. now destruct (existsb _ _).
Qed.

Lemma append_entry_nodup k e d :
  hashable k = true ->
  NoDup (map fst d) -> NoDup (map fst (append_entry k e d)).
Proof.
  intros Hk Hd. rewrite append_entry_keys.
  destruct (existsb _ _) eqn:E; [assumption|].
  apply NoDup_app; [assumption | repeat constructor; now simpl |].
  intros a Ha [<-|[]]. rewrite (existsb_key_In _ _ Hk Ha) in E. discriminate.
Qed.

Lemma append_entry_nonempty k e d :
  Forall (fun kv => snd kv <> []) d ->
  Forall (fun kv : value * list PricingEntry => snd kv <> []) (append_entry k e d).
Proof.
  induction 1 as [|[k' es] d Hes Hd IH]; simpl.
  - repeat constructor. discriminate.
  - destruct (key_eqb k' k); constructor; simpl in *; try assumption.
    now destruct es.
Qed.

Lemma append_entry_total k e d :
  List.length (List.concat (map snd (append_entry k e d))) = S (List.length (List.concat (map snd d))).
Proof.
  induction d as [|[k' es] d IH]; simpl; [reflexivity|].
  destruct (key_eqb k' k); simpl; rewrite !List.length_app.
  - simpl. lia.
  - rewrite IH. lia.
Qed.

Lemma vdict_set_fresh {A : Type} s (v : A) d :
  ~ In (VStr s) (map fst d) -> vdict_set (VStr s) v d = d ++ [(VStr s, v)].
Proof.
  induction d as [|[k' v'] d IH]; simpl; intros Hn; [reflexivity|].
  destruct (key_eqb k' (VStr s)) eqn:E.
  - apply key_eqb_str_r in E. subst k'. exfalso. apply Hn. now left.
  - f_equal. apply IH. intros Hin. apply Hn. now right.
Qed.

Lemma instance_info_str v t : instance_info v = Ok t -> exists s, v = VStr s.
Proof. destruct v; try discriminate. intros _. now eexists. Qed.

Lemma second_loop d :
  forall acc m,
    NoDup (map fst acc ++ map fst d) ->
    for_each add_instance d acc = Ok m ->
    exists new, m = acc ++ new /\ Forall2 recorded d new.
Proof.
  induction d as [|[k es] d IH]; intros acc m Hnd H; simpl in H.
  - injection H as <-. exists []. rewrite app_nil_r. now split.
  - apply bind_ok in H as (acc1 & H1 & H).
    unfold add_instance in H1.
    apply bind_ok in H1 as ([[f a] c] & Hi & H1). injection H1 as <-.
    destruct (instance_info_str _ _ Hi) as [s ->].
    simpl in Hnd. pose proof (NoDup_remove_2 _ _ _ Hnd) as Hfresh.
    rewrite vdict_set_fresh in H
      by (intros Hin; apply Hfresh; apply in_or_app; now left).
    apply IH in H as (new & -> & Hnew).
    + eexists. rewrite <- app_assoc. split; [reflexivity|].
      constructor; [|exact Hnew]. now repeat split.
    + rewrite map_app. simpl. rewrite <- app_assoc. simpl.
      apply NoDup_remove_1 in Hnd as Hnd'.
      apply NoDup_Add with (a := VStr s) (l := (map fst acc ++ map fst d)%list).
      * apply Add_app.
      * split; assumption.
Qed.

(** ** The structure of the normalised data *)

Lemma grouped_invariant kes :
  forall d,
    Forall (fun ke => hashable (fst ke) = true) kes ->
    NoDup (map fst d) -> Forall (fun kv => snd kv <> []) d ->
    NoDup (map fst (grouped kes d)) /\
    Forall (fun kv => snd kv <> []) (grouped kes d) /\
    List.length (List.concat (map snd (grouped kes d)))
    = (List.length (List.concat (map snd d)) + List.length kes)%nat.
Proof.
  unfold grouped.
  induction kes as [|[k e] kes IH]; intros d Hk Hnd Hne; simpl.
  - repeat split; [assumption | assumption | lia].
  - inversion Hk as [|? ? Hk1 Hk2]; subst. simpl in Hk1.
    destruct (IH (append_entry k e d) Hk2) as (I1 & I2 & I3).
    + now apply append_entry_nodup.
    + now apply append_entry_nonempty.
    + repeat split; [assumption | assumption |].
      rewrite I3, append_entry_total. lia.
Qed.

Lemma recorded_keys d m : Forall2 recorded d m -> map fst m = map fst d.
Proof.
  induction 1 as [|kv ki d m (Hk & _) _ IH]; simpl; [reflexivity|].
  now rewrite Hk, IH.
Qed.

Lemma recorded_pricing d m :
  Forall2 recorded d m -> map (fun ki => pricing (snd ki)) m = map snd d.
Proof.
  induction 1 as [|kv ki d m (_ & Hp & _) _ IH]; simpl; [reflexivity|].
  now rewrite Hp, IH.
Qed.

Lemma recorded_group d m k :
  Forall2 recorded d m -> pricing_of k m = group_get k d.
Proof.
  unfold pricing_of, group_get.
  induction 1 as [|[k1 es] [k2 itp] d m (Hk & Hp & _) _ IH]; simpl; [reflexivity|].
  simpl in Hk, Hp. subst k2.
  destruct (key_eqb k1 k); [assumption | exact IH].
Qed.

Lemma vdict_get_In {A : Type} s (v : A) d :
  NoDup (map fst d) -> In (VStr s, v) d -> vdict_get (VStr s) d = Some v.
Proof.
  induction d as [|[k' v'] d IH]; simpl; intros Hnd Hin; [destruct Hin|].
  inversion Hnd as [|? ? Hfresh Hnd']; subst.
  destruct (key_eqb k' (VStr s)) eqn:E.
  - apply key_eqb_str_r in E. subst k'.
    destruct Hin as [Hin|Hin]; [congruence|].
    exfalso. apply Hfresh. now apply (in_map fst) in Hin.
  - destruct Hin as [Hin|Hin]; [|now apply IH].
    injection Hin as -> _. now rewrite key_eqb_str_refl in E.
Qed.

Section Structure.

Context {html_text : HtmlText}.

Lemma row_entry_kept r k e :
  row_entry r = Ok (Some (k, e)) ->
  k = get r "instance_type" (VStr "") /\ truthy k = true /\ hashable k = true /\
  clean_html (get r "region" (VStr "")) = Ok (region e) /\ region e <> "" /\
  region_code e = region_code_of (region e) /\
  parse_price_string (get r "price" (VStr ""))
  = Ok (hourly_rate_usd e, accelerator_hourly_rate_usd e) /\
  F64.eqb (hourly_rate_usd e) F64.zero = false.
Proof.
  unfold row_entry. intros H.
  destruct (truthy (get r "instance_type" (VStr ""))) eqn:Et; simpl in H; [|discriminate].
  apply bind_ok in H as (reg & Hreg & H).
  destruct (reg =? "") eqn:En; [discriminate|].
  destruct (negb (truthy (get r "price" (VStr "")))); [discriminate|].
  apply bind_ok in H as ([hourly per_acc] & Hp & H).
  destruct (F64.eqb hourly F64.zero) eqn:Ez; [discriminate|].
  destruct (hashable (get r "instance_type" (VStr ""))) eqn:Eh; [|discriminate].
  injection H as <- <-. simpl.
  repeat split; try assumption; try reflexivity.
  intros ->. discriminate.
Qed.

Lemma entries_of_origin rows :
  forall kes ke,
    entries_of rows = Ok kes -> In ke kes ->
    exists r, In r rows /\ row_entry r = Ok (Some ke).
Proof.
  induction rows as [|r rows IH]; intros kes ke H Hin; simpl in H.
  - injection H as <-. destruct Hin.
  - apply bind_ok in H as (o & Ho & H).
    apply bind_ok in H as (rest & Hrest & H). injection H as <-.
    apply in_app_or in Hin as [Hin|Hin].
    + destruct o as [ke'|]; [|destruct Hin].
      destruct Hin as [<-|[]]. exists r. split; [now left | assumption].
    + destruct (IH _ _ Hrest Hin) as (r' & Hr' & E).
      exists r'. split; [now right | assumption].
Qed.

Lemma entries_of_hashable rows kes :
  entries_of rows = Ok kes -> Forall (fun ke => hashable (fst ke) = true) kes.
Proof.
  intros H. apply Forall_forall. intros [k e] Hin.
  destruct (entries_of_origin _ _ _ H Hin) as (r & _ & E).
  now apply row_entry_kept in E.
Qed.

Lemma parse_pricing_data_structure rows m :
  parse_pricing_data rows = Ok m ->
  exists kes,
    entries_of rows = Ok kes /\ Forall2 recorded (grouped kes []) m.
Proof.
  unfold parse_pricing_data. rewrite first_loop. intros H.
  apply bind_ok in H as (d & H1 & H2).
  apply bind_ok in H1 as (kes & Hkes & H1). injection H1 as <-.
  exists kes. split; [assumption|].
  apply second_loop in H2 as (new & -> & Hnew); [exact Hnew|].
  simpl. apply grouped_invariant; [now apply entries_of_hashable with rows| constructor | constructor].
Qed.

Lemma entries_for_In s e kes :
  In e (entries_for s kes) -> In (VStr s, e) kes.
Proof.
  unfold entries_for. intros H. apply in_map_iff in H as ([k e'] & <- & H).
  apply filter_In in H as (H & E). simpl in E. apply key_eqb_str_r in E. now subst k.
Qed.

Lemma In_entries_for s e kes :
  In (VStr s, e) kes -> In e (entries_for s kes).
Proof.
  unfold entries_for. intros H. apply in_map_iff. exists (VStr s, e). split; [reflexivity|].
  apply filter_In. split; [assumption|]. apply key_eqb_str_refl.
Qed.

End Structure.

Lemma region_code_of_trimmed reg :
  strip reg = reg ->
  region_code_of reg =
  match lookup reg REGION_NAME_TO_CODE with
  | Some code => code
  | None => "unknown"
  end.
Proof.
  intros H. unfold region_code_of. rewrite H.
  destruct (lookup reg REGION_NAME_TO_CODE) as [c|] eqn:E; [|reflexivity].
  now rewrite (region_codes_nonempty _ _ E).
Qed.

Lemma region_code_of_nonempty reg : strip reg = reg -> region_code_of reg <> "".
Proof.
  intros H. rewrite (region_code_of_trimmed _ H).
  destruct (lookup reg REGION_NAME_TO_CODE) as [c|] eqn:E; [|discriminate].
  apply region_codes_nonempty in E. intros ->. discriminate.
Qed.

Lemma Forall2_In_r {A B : Type} (P : A -> B -> Prop) l l' y :
  Forall2 P l l' -> In y l' -> exists x, In x l /\ P x y.
Proof.
  induction 1 as [|a b l l' Hab _ IH]; intros Hin; [destruct Hin|].
  destruct Hin as [<-|Hin].
  - exists a. split; [now left | assumption].
  - destruct (IH Hin) as (x & Hx & Hp). exists x. split; [now right | assumption].
Qed.

Section Output.

Context {html_text : HtmlText}.

Lemma parse_price_string_nonneg_acc v h a :
  parse_price_string v = Ok (h, a) -> F64.is_nonneg a = true.
Proof.
  unfold parse_price_string. intros H.
  apply bind_ok in H as (s & _ & H). now apply match_price_nonneg_both in H.
Qed.


(** X11. In the result of [parse_pricing_data] the keys are pairwise
    distinct; each key is a non-empty string that is the instance type of
    some row, its pricing list is not empty, and its family, accelerator
    and count are those that [_infer_instance_info] gives for the key. *)
Theorem instance_types_well_formed rows m :
  parse_pricing_data rows = Ok m ->
  NoDup (map fst m) /\
  forall k itp,
    In (k, itp) m ->
    (exists s r, k = VStr s /\ s <> "" /\ In r rows /\
                 get r "instance_type" (VStr "") = VStr s) /\
    pricing itp <> [] /\
    _infer_instance_info k
    = Ok (instance_family itp, accelerator_type itp, accelerator_count itp).
Proof.
  intros H. destruct (parse_pricing_data_structure _ _ H) as (kes & Hkes & Hrec).
  destruct (grouped_invariant kes [] (entries_of_hashable _ _ Hkes)) as (Hnd & Hne & _);
    [constructor | constructor |].
  split; [now rewrite (recorded_keys _ _ Hrec)|].
  intros k itp Hin.
  destruct (Forall2_In_r _ _ _ _ Hrec Hin) as ([k' es] & Hd & Ek & Ep & Ei).
  simpl in Ek, Ep, Ei. subst k' es.
  destruct (instance_info_str _ _ Ei) as [s ->].
  assert (Hes : pricing itp <> []).
  { rewrite Forall_forall in Hne. exact (Hne _ Hd). }
  repeat split; try assumption.
  - assert (Hg : group_get (VStr s) (grouped kes []) = pricing itp).
    { unfold group_get. now rewrite (vdict_get_In _ _ _ Hnd Hd). }
    rewrite group_get_grouped in Hg. simpl in Hg.
    destruct (pricing itp) as [|e es] eqn:Ee; [now destruct Hes|].
    assert (He : In e (entries_for s kes)) by (rewrite Hg; now left).
    apply entries_for_In in He.
    destruct (entries_of_origin _ _ _ Hkes He) as (r & Hr & E).
    apply row_entry_kept in E as (Ek & Et & _).
    exists s, r. repeat split; try assumption; [|now symmetry].
    intros ->. discriminate.
  - rewrite <- Ei. clear. destruct (lookup s INSTANCE_TYPE_INFO) as [i|] eqn:E.
    + rewrite (instance_info_known _ _ E). now apply infer_agrees_with_table.
    + symmetry. now apply instance_info_inferred.
Qed.

(** X12. Every pricing entry of the result comes from a row with the
    instance type of its key: its region is the cleaned region of the row
    and its rates are the parsed price of the row.  The region is not
    empty and is stripped, the region code is the code of the table for
    the region or the text [unknown], never empty, and the rate per
    accelerator is not negative. *)
Theorem pricing_entries_come_from_rows rows m k itp e :
  parse_pricing_data rows = Ok m ->
  In (k, itp) m -> In e (pricing itp) ->
  (exists r,
     In r rows /\ get r "instance_type" (VStr "") = k /\
     clean_html (get r "region" (VStr "")) = Ok (region e) /\
     parse_price_string (get r "price" (VStr ""))
     = Ok (hourly_rate_usd e, accelerator_hourly_rate_usd e)) /\
  region e <> "" /\ strip (region e) = region e /\
  region_code e =
  match lookup (region e) REGION_NAME_TO_CODE with
  | Some code => code
  | None => "unknown"
  end /\
  region_code e <> "" /\
  F64.is_nonneg (accelerator_hourly_rate_usd e) = true.
Proof.
  intros H Hin He. destruct (parse_pricing_data_structure _ _ H) as (kes & Hkes & Hrec).
  destruct (grouped_invariant kes [] (entries_of_hashable _ _ Hkes)) as (Hnd & _ & _);
    [constructor | constructor |].
  destruct (Forall2_In_r _ _ _ _ Hrec Hin) as ([k' es] & Hd & Ek & Ep & Ei).
  simpl in Ek, Ep, Ei. subst k' es.
  destruct (instance_info_str _ _ Ei) as [s ->].
  assert (Hg : group_get (VStr s) (grouped kes []) = pricing itp).
  { unfold group_get. now rewrite (vdict_get_In _ _ _ Hnd Hd). }
  rewrite group_get_grouped in Hg. simpl in Hg. rewrite <- Hg in He.
  apply entries_for_In in He.
  destruct (entries_of_origin _ _ _ Hkes He) as (r & Hr & E).
  apply row_entry_kept in E as (Ek & _ & _ & Ereg & En & Ec & Epr & _).
  pose proof (clean_html_trimmed _ _ Ereg) as Hs.
  split; [exists r; repeat split; try assumption; now symmetry|].
  repeat split; try assumption.
  - rewrite Ec. now apply region_code_of_trimmed.
  - rewrite Ec. now apply region_code_of_nonempty.
  - now apply parse_price_string_nonneg_acc in Epr.
Qed.

(** X13. Grouping loses and reorders nothing: the pricing list of an
    instance type holds the entries of the kept rows with that instance
    type, in the order of the rows, and the pricing lists together hold as
    many entries as rows were kept. *)
Theorem pricing_grouped_in_row_order rows m :
  parse_pricing_data rows = Ok m ->
  exists kes,
    entries_of rows = Ok kes /\
    (forall s, pricing_of (VStr s) m = entries_for s kes) /\
    List.length (List.concat (map (fun ki => pricing (snd ki)) m)) = List.length kes.
Proof.
  intros H. destruct (parse_pricing_data_structure _ _ H) as (kes & Hkes & Hrec).
  exists kes. split; [assumption|]. split.
  - intros s. rewrite (recorded_group _ _ (VStr s) Hrec). now rewrite group_get_grouped.
  - rewrite (recorded_pricing _ _ Hrec).
    now destruct (grouped_invariant kes [] (entries_of_hashable _ _ Hkes))
      as (_ & _ & ->); [constructor | constructor |].
Qed.

End Output.

(** ** The outcome of the normalisation *)

Lemma instance_info_not_string k :
  is_string k = false -> instance_info k = Raise AttributeError.
Proof. destruct k; try reflexivity. discriminate. Qed.

Lemma second_loop_outcome d :
  forall acc,
    if forallb is_string (map fst d)
    then is_ok (for_each add_instance d acc) = true
    else for_each add_instance d acc = Raise AttributeError.
Proof.
  induction d as [|[k es] d IH]; intros acc; simpl; [reflexivity|].
  destruct (is_string k) eqn:Ek; simpl.
  - destruct k; try discriminate.
    pose proof (instance_info_total s) as Ht.
    destruct (instance_info (VStr s)) as [[[f a] c]|]; [|discriminate]. simpl.
    apply IH.
  - now rewrite (instance_info_not_string _ Ek).
Qed.

Lemma key_eqb_string k' k :
  key_eqb k' k = true -> is_string k' = is_string k.
Proof.
  intros E. destruct k as [| | | |s| |].
  5: { apply key_eqb_str_r in E. now subst k'. }
  all: destruct k' as [| | | |s'| |]; try reflexivity;
    apply key_eqb_str_l in E; discriminate.
Qed.

Lemma append_entry_strings k e d :
  forallb is_string (map fst (append_entry k e d))
  = forallb is_string (map fst d) && is_string k.
Proof.
  induction d as [|[k' es] d IH]; simpl; [now rewrite andb_true_r|].
  destruct (key_eqb k' k) eqn:E; simpl.
  - rewrite <- (key_eqb_string _ _ E).
    destruct (is_string k'); simpl; [now rewrite andb_true_r | reflexivity].
  - rewrite IH. now rewrite andb_assoc.
Qed.

Lemma grouped_strings kes :
  forall d,
    forallb is_string (map fst (grouped kes d))
    = forallb is_string (map fst d) && forallb is_string (map fst kes).
Proof.
  unfold grouped.
  induction kes as [|[k e] kes IH]; intros d; simpl; [now rewrite andb_true_r|].
  rewrite IH, append_entry_strings. now rewrite andb_assoc.
Qed.

Lemma filter_key_app s (kes1 kes2 : list (value * PricingEntry)) :
  entries_for s (kes1 ++ kes2) = (entries_for s kes1 ++ entries_for s kes2)%list.
Proof. unfold entries_for. now rewrite filter_app, map_app. Qed.


Section Outcome.

Context {html_text : HtmlText}.

Lemma parse_pricing_data_by_entries rows :
  parse_pricing_data rows =
  (kes <- entries_of rows ;; for_each add_instance (grouped kes []) []).
Proof.
  unfold parse_pricing_data. rewrite first_loop.
  now destruct (entries_of rows).
Qed.

Lemma parse_pricing_data_strings rows m kes :
  parse_pricing_data rows = Ok m -> entries_of rows = Ok kes ->
  forallb is_string (map fst kes) = true.
Proof.
  rewrite parse_pricing_data_by_entries. intros H E. rewrite E in H. simpl in H.
  pose proof (second_loop_outcome (grouped kes []) []) as O.
  rewrite grouped_strings in O. simpl in O.
  destruct (forallb is_string (map fst kes)); [reflexivity | congruence].
Qed.

Lemma pricing_of_output rows m kes s :
  parse_pricing_data rows = Ok m -> entries_of rows = Ok kes ->
  pricing_of (VStr s) m = entries_for s kes.
Proof.
  intros H E. destruct (parse_pricing_data_structure _ _ H) as (kes' & Hkes & Hrec).
  assert (kes' = kes) by congruence. subst kes'.
  rewrite (recorded_group _ _ (VStr s) Hrec). now rewrite group_get_grouped.
Qed.

Lemma entries_of_app rows1 rows2 :
  entries_of (rows1 ++ rows2) =
  (kes1 <- entries_of rows1 ;; kes2 <- entries_of rows2 ;; Ok (kes1 ++ kes2)%list).
Proof.
  induction rows1 as [|r rows1 IH]; simpl.
  - now destruct (entries_of rows2).
  - destruct (row_entry r) as [o|]; simpl; [|reflexivity].
    rewrite IH. destruct (entries_of rows1) as [kes1|]; simpl; [|reflexivity].
    destruct (entries_of rows2) as [kes2|]; simpl; [|reflexivity].
    now rewrite app_assoc.
Qed.




(** X14. The outcome of [parse_pricing_data]: the first exception of a
    row when a row raises; otherwise an [AttributeError] when the instance
    type of a kept row is not a string, and a result in every other case.
    The rows are all read before the metadata is resolved, so the
    exception of a row comes before the [AttributeError]. *)
Theorem parse_pricing_data_outcome rows :
  match entries_of rows with
  | Raise e => parse_pricing_data rows = Raise e
  | Ok kes =>
      if forallb is_string (map fst kes)
      then is_ok (parse_pricing_data rows) = true
      else parse_pricing_data rows = Raise AttributeError
  end.
Proof.
  rewrite parse_pricing_data_by_entries.
  destruct (entries_of rows) as [kes|e]; simpl; [|reflexivity].
  pose proof (second_loop_outcome (grouped kes []) []) as O.
  now rewrite grouped_strings in O.
Qed.


(** X16. Normalisation goes along with concatenation: when two lists of
    rows are each normalised without an exception, so is their
    concatenation, and the pricing list of every instance type is its list
    from the first rows followed by its list from the second. *)
Theorem parse_pricing_data_concatenation rows1 rows2 m1 m2 :
  parse_pricing_data rows1 = Ok m1 ->
  parse_pricing_data rows2 = Ok m2 ->
  exists m,
    parse_pricing_data (rows1 ++ rows2) = Ok m /\
    forall s,
      pricing_of (VStr s) m = (pricing_of (VStr s) m1 ++ pricing_of (VStr s) m2)%list.
Proof.
  intros H1 H2.
  destruct (parse_pricing_data_structure _ _ H1) as (kes1 & E1 & _).
  destruct (parse_pricing_data_structure _ _ H2) as (kes2 & E2 & _).
  pose proof (parse_pricing_data_strings _ _ _ H1 E1) as S1.
  pose proof (parse_pricing_data_strings _ _ _ H2 E2) as S2.
  assert (E : entries_of (rows1 ++ rows2) = Ok (kes1 ++ kes2)%list).
  { rewrite entries_of_app, E1, E2. reflexivity. }
  destruct (parse_pricing_data (rows1 ++ rows2)) as [m|e] eqn:H.
  - exists m. split; [reflexivity|]. intros s.
    rewrite (pricing_of_output _ _ _ s H E), (pricing_of_output _ _ _ s H1 E1),
      (pricing_of_output _ _ _ s H2 E2).
    apply filter_key_app.
  - exfalso. rewrite parse_pricing_data_by_entries, E in H. simpl in H.
    pose proof (second_loop_outcome (grouped (kes1 ++ kes2) []) []) as O.
    rewrite grouped_strings, map_app, forallb_app, S1, S2 in O. simpl in O.
    rewrite H in O. discriminate.
Qed.

End Outcome.

(** ** The scan, script by script *)

Lemma startswith_across (t x : string) h y :
  has_char h t = false ->
  startswith t (x ++ String h y) = true -> startswith t x = true.
Proof.
  revert x; induction t as [|b t IH]; intros x Hh H; [reflexivity|].
  simpl in Hh. apply orb_false_elim in Hh as [Hb Ht].
  destruct x as [|a x]; simpl in *.
  - now rewrite Hb in H.
  - apply andb_prop in H as [-> H]. now apply IH.
Qed.

Lemma contains_suffix p (w s : string) :
  contains p (w ++ s) = false -> startswith p s = false.
Proof.
  induction w as [|a w IH]; simpl; intros H.
  - now apply contains_head.
  - apply IH. now apply (contains_tail _ a).
Qed.

(** A text that starts with the first character of [p], which [p] holds
    only once, cannot complete an occurrence of [p] begun before it. *)
Lemma no_straddle h t (w s y : string) :
  has_char h t = false ->
  contains (String h t) (w ++ s) = false ->
  s <> "" ->
  startswith (String h t) (s ++ String h y) = false.
Proof.
  intros Hh Hc Hs. apply contains_suffix in Hc.
  destruct s as [|a s]; [now destruct Hs|].
  simpl in *. destruct (Ascii.eqb h a); [|reflexivity]. simpl in *.
  destruct (startswith t (s ++ String h y)) eqn:E; [|reflexivity].
  apply startswith_across in E; [congruence | assumption].
Qed.

Lemma lit_fail (l : string) r o caps (s : string) :
  startswith l s = false -> match_here (lit l ++ r) o caps s = None.
Proof.
  intros H. destruct (match_here (lit l ++ r) o caps s) as [res|] eqn:E; [|reflexivity].
  apply lit_inv in E as (s' & -> & _). now rewrite startswith_app in H.
Qed.

Lemma lazy_first k (w t : string) res :
  (forall w1 s1, w = (w1 ++ s1)%string -> s1 <> "" -> k (s1 ++ t)%string = None) ->
  k t = Some res ->
  lazy CAny k (w ++ t) = Some res.
Proof.
  intros H K. induction w as [|a w IH].
  - simpl. destruct t; simpl; now rewrite K.
  - change (String a w ++ t)%string with (String a (w ++ t)%string).
    pose proof (H "" (String a w) eq_refl ltac:(discriminate)) as K0.
    change (String a w ++ t)%string with (String a (w ++ t)%string) in K0.
    cbn [lazy]. rewrite K0. simpl. apply IH. intros w1 s1 -> Hs. apply (H (String a w1) s1); [reflexivity | assumption].
Qed.

Lemma lazy_inv_first c k (s : string) res :
  lazy c k s = Some res ->
  exists w s',
    s = (w ++ s')%string /\ k s' = Some res /\
    forall w1 s1, w = (w1 ++ s1)%string -> s1 <> "" -> k (s1 ++ s')%string = None.
Proof.
  induction s as [|a s IH]; simpl; intros H.
  - destruct (k "") eqn:K; [|discriminate].
    exists "", "". repeat split; [congruence|].
    intros [|x w1] s1 E Hs; simpl in E; [now subst s1 | discriminate].
  - destruct (k (String a s)) eqn:K.
    + exists "", (String a s). repeat split; [congruence|].
      intros [|x w1] s1 E Hs; simpl in E; [now subst s1 | discriminate].
    + destruct (cset_match c a); [|discriminate].
      destruct (IH H) as (w & s' & -> & K' & Hmin).
      exists (String a w), s'. repeat split; [assumption|].
      intros [|x w1] s1 E Hs; simpl in E.
      * subst s1. exact K.
      * injection E as <- E. now apply (Hmin w1 s1).
Qed.

Lemma open_tag_head : exists t, OPEN_TAG = String "<" t /\ has_char "<" t = false.
Proof. eexists. split; reflexivity. Qed.

Lemma close_tag_head : exists t, CLOSE_TAG = String "<" t /\ has_char "<" t = false.
Proof. eexists. split; reflexivity. Qed.

Lemma script_match_at (content rest : string) :
  contains CLOSE_TAG content = false ->
  match_at script_pattern (OPEN_TAG ++ content ++ CLOSE_TAG ++ rest)
  = Some ([content], rest).
Proof.
  intros Hc. unfold match_at, script_pattern. rewrite lit_match.
  cbn [app match_here].
  apply lazy_first.
  - intros w1 s1 -> Hs. cbn [match_here].
    change (lit "</script>") with (lit CLOSE_TAG ++ [])%list.
    apply lit_fail.
    destruct close_tag_head as (t & E & Ht). rewrite E in *.
    change (String "<" t ++ rest)%string with (String "<" (t ++ rest)%string).
    now apply (no_straddle "<" t w1 s1).
  - cbn [match_here].
    change (lit "</script>") with (lit CLOSE_TAG ++ [])%list.
    rewrite lit_match, capture_app. reflexivity.
Qed.

Lemma findall_from_skip r (a s : string) :
  findall_from r (String.length a) (a ++ s) = findall_from r 0 s.
Proof. induction a as [|x a IH]; simpl; [now destruct s | exact IH]. Qed.

Lemma findall_from_gap r (gap y : string) :
  (forall w s1, gap = (w ++ s1)%string -> s1 <> "" -> match_at r (s1 ++ y) = None) ->
  findall_from r 0 (gap ++ y) = findall_from r 0 y.
Proof.
  induction gap as [|a gap IH]; intros H; [reflexivity|].
  pose proof (H "" (String a gap) eq_refl ltac:(discriminate)) as K0.
  change (String a gap ++ y)%string with (String a (gap ++ y)%string) in *.
  cbn [findall_from]. rewrite K0. apply IH.
  intros w s1 -> Hs. apply (H (String a w) s1); [reflexivity | assumption].
Qed.

Lemma findall_from_match r x (m rest : string) caps :
  match_at r (String x m ++ rest) = Some (caps, rest) ->
  findall_from r 0 (String x m ++ rest) = caps :: findall_from r 0 rest.
Proof.
  intros H. change (String x m ++ rest)%string with (String x (m ++ rest)%string) in *.
  cbn [findall_from]. rewrite H. f_equal.
  replace (Nat.pred (String.length (String x (m ++ rest)) - String.length rest))
    with (String.length m).
  - apply findall_from_skip.
  - change (String.length (String x (m ++ rest))) with (S (String.length (m ++ rest))).
    rewrite length_app. lia.
Qed.

Lemma script_matches_step (gap content rest : string) :
  contains OPEN_TAG gap = false ->
  contains CLOSE_TAG content = false ->
  script_matches (gap ++ OPEN_TAG ++ content ++ CLOSE_TAG ++ rest)
  = content :: script_matches rest.
Proof.
  intros Hg Hc. unfold script_matches, findall.
  rewrite findall_from_gap.
  - destruct open_tag_head as (t & E & _).
    pose proof (script_match_at content rest Hc) as M.
    replace (OPEN_TAG ++ content ++ CLOSE_TAG ++ rest)%string
      with (String "<" (t ++ content ++ CLOSE_TAG) ++ rest)%string in *
      by (rewrite E; simpl; now rewrite !append_assoc).
    now rewrite (findall_from_match _ _ _ _ _ M).
  - intros w s1 -> Hs. apply script_pattern_needs_tag.
    destruct open_tag_head as (t & E & Ht). rewrite E in *.
    change (String "<" t ++ content ++ CLOSE_TAG ++ rest)%string
      with (String "<" (t ++ content ++ CLOSE_TAG ++ rest)%string).
    now apply (no_straddle "<" t w s1).
Qed.

Lemma script_matches_assembled parts tail :
  Forall (fun gc => contains OPEN_TAG (fst gc) = false /\
                    contains CLOSE_TAG (snd gc) = false) parts ->
  contains OPEN_TAG tail = false ->
  script_matches (assembled parts tail) = map snd parts.
Proof.
  intros Hp Ht. induction Hp as [|[gap content] parts [Hg Hc] _ IH];
    cbn [assembled map snd fst] in *.
  - now apply script_matches_without_tag.
  - rewrite script_matches_step by assumption. now rewrite IH.
Qed.

Lemma contains_all_suffixes p (s : string) :
  (forall w s1, s = (w ++ s1)%string -> startswith p s1 = false) ->
  contains p s = false.
Proof.
  induction s as [|a s IH]; intros H.
  - simpl. rewrite (H "" "" eq_refl). reflexivity.
  - cbn [contains]. rewrite (H "" (String a s) eq_refl). simpl.
    apply IH. intros w s1 ->. now apply (H (String a w) s1).
Qed.

Lemma startswith_extend p (s y : string) :
  startswith p s = true -> startswith p (s ++ y) = true.
Proof.
  intros H. apply startswith_inv in H as [t ->].
  rewrite append_assoc. apply startswith_app.
Qed.

Lemma lit_succeeds (l : string) o caps (s : string) :
  startswith l s = true -> match_here (lit l ++ []) o caps s <> None.
Proof.
  intros H. apply startswith_inv in H as [t ->]. rewrite lit_match. discriminate.
Qed.

Lemma script_content_closed (s : string) caps rest :
  match_at script_pattern s = Some (caps, rest) ->
  contains CLOSE_TAG (group caps 1) = false.
Proof.
  unfold match_at, script_pattern. intros H.
  apply lit_inv in H as (s1 & -> & H).
  cbn [app match_here] in H.
  apply lazy_inv_first in H as (w & s2 & -> & H & Hmin).
  change (match_here (lit "</script>" ++ []) (w ++ s2) ([] ++ [capture (w ++ s2) s2]) s2
          = Some (caps, rest)) in H.
  apply lit_inv in H as (s3 & -> & H).
  rewrite capture_app in H. simpl in H. injection H as <- <-.
  cbn [group nth Nat.pred].
  apply contains_all_suffixes. intros w1 s1 ->.
  destruct s1 as [|a s1]; [reflexivity|].
  destruct (startswith CLOSE_TAG (String a s1)) eqn:E; [|reflexivity].
  specialize (Hmin w1 (String a s1) eq_refl ltac:(discriminate)).
  cbn [match_here] in Hmin.
  change (lit "</script>") with (lit CLOSE_TAG ++ [])%list in Hmin.
  apply (startswith_extend _ _ ("</script>" ++ s3)) in E.
  now apply lit_succeeds in Hmin.
Qed.

(** X17. The scan finds what was embedded: on a page put together from
    scripts, each between the opening and the closing tag, where no text
    before a script and not the tail holds the opening tag and no script
    holds the closing tag, the scan returns exactly the scripts, in their
    order, and extraction reads these scripts and nothing else. *)
Theorem script_matches_round_trip parts tail :
  Forall (fun gc => contains OPEN_TAG (fst gc) = false /\
                    contains CLOSE_TAG (snd gc) = false) parts ->
  contains OPEN_TAG tail = false ->
  script_matches (assembled parts tail) = map snd parts /\
  extract_json_data (assembled parts tail) = for_each script_rows (map snd parts) [].
Proof.
  intros Hp Ht. unfold extract_json_data.
  now rewrite (script_matches_assembled _ _ Hp Ht).
Qed.

(** X18. A script ends at the first closing tag: no content that the
    scan returns holds the closing tag. *)
Theorem script_content_ends_at_first_close html content :
  In content (script_matches html) ->
  contains CLOSE_TAG content = false.
Proof.
  unfold script_matches, findall. intros H.
  apply in_map_iff in H as (caps & <- & H).
  apply findall_from_In in H as (pre & s' & rest & -> & K).
  now apply script_content_closed in K.
Qed.

(** ** The counts of a successful run *)

Lemma list_sum_concat {A : Type} (l : list (list A)) :
  list_sum (map (@List.length A) l) = List.length (List.concat l).
Proof.
  induction l as [|x l IH]; simpl; [reflexivity|].
  now rewrite List.length_app, IH.
Qed.

Lemma nonempty_lists_sum {A : Type} (l : list (list A)) :
  Forall (fun x => x <> []) l -> (List.length l <= list_sum (map (@List.length A) l))%nat.
Proof.
  induction 1 as [|x l Hx _ IH]; simpl; [lia|].
  destruct x; [now destruct Hx|]. simpl. lia.
Qed.

Section Counts.

Context {html_text : HtmlText}.

Lemma entries_of_length rows kes :
  entries_of rows = Ok kes -> (List.length kes <= List.length rows)%nat.
Proof.
  revert kes; induction rows as [|r rows IH]; intros kes H; simpl in H.
  - injection H as <-. simpl. lia.
  - apply bind_ok in H as (o & _ & H).
    apply bind_ok in H as (rest & Hrest & H). injection H as <-.
    specialize (IH _ Hrest). rewrite List.length_app.
    destruct o; simpl; lia.
Qed.

Lemma parse_pricing_data_counts rows m :
  parse_pricing_data rows = Ok m ->
  (List.length m <= list_sum (map (fun ki => List.length (pricing (snd ki))) m))%nat /\
  (list_sum (map (fun ki => List.length (pricing (snd ki))) m) <= List.length rows)%nat.
Proof.
  intros H. destruct (parse_pricing_data_structure _ _ H) as (kes & Hkes & Hrec).
  destruct (grouped_invariant kes [] (entries_of_hashable _ _ Hkes)) as (_ & Hne & Hlen);
    [constructor | constructor |].
  pose proof (recorded_pricing _ _ Hrec) as Hp.
  assert (E : map (fun ki : value * InstanceTypePricing => List.length (pricing (snd ki))) m
              = map (@List.length _) (map (fun ki => pricing (snd ki)) m))
    by (now rewrite map_map).
  rewrite E, Hp. split.
  - rewrite <- (length_map (fun ki => pricing (snd ki)) m), Hp.
    apply nonempty_lists_sum. rewrite Forall_map. exact Hne.
  - rewrite list_sum_concat, Hlen. simpl. now apply entries_of_length.
Qed.

(** X19. After a successful [scrape_pricing], the numbers that [main]
    reports are consistent: there is at least one instance type, at least
    as many pricing entries as instance types, and at most as many pricing
    entries as rows were extracted from the fetched page. *)
Theorem scrape_pricing_counts fetch_page utc_now data :
  scrape_pricing fetch_page utc_now = Ok data ->
  (1 <= instance_count data <= total_entries data)%nat /\
  exists html rows,
    fetch_page SOURCE_URL = Ok html /\ extract_json_data html = Ok rows /\
    (total_entries data <= List.length rows)%nat.
Proof.
  unfold scrape_pricing. intros H.
  apply bind_ok in H as (html & Hf & H).
  apply bind_ok in H as (rows & Hx & H).
  destruct rows as [|r rows]; [discriminate|].
  apply bind_ok in H as (m & Hp & H).
  destruct m as [|ki m]; [discriminate|].
  injection H as <-.
  destruct (parse_pricing_data_counts _ _ Hp) as [C1 C2].
  unfold instance_count, total_entries. cbn [instance_types].
  split; [split; [simpl; lia | exact C1]|].
  exists html, (r :: rows). repeat split; assumption.
Qed.

End Counts.

(** ** The further properties at concrete inputs *)


Lemma region_retry_never_succeeds_witness :
  region_code_of "US East (Ohio)" = "us-east-2" /\ region_code_of "Atlantis" = "unknown".
Proof.
  split.
  - exact (region_retry_never_succeeds (html_text := plain_html)
             (VStr " US East (Ohio) ") "US East (Ohio)" eq_refl).
  - exact (region_retry_never_succeeds (html_text := plain_html)
             (VStr "Atlantis") "Atlantis" eq_refl).
Defined.

Lemma parse_price_string_never_negative_witness :
  F64.is_nonneg (decimal_float false 1250 (-2)) = true /\ F64.is_nonneg F64.zero = true.
Proof.
  exact (parse_price_string_never_negative (html_text := plain_html)
           (VStr "$12.50 USD") (decimal_float false 1250 (-2)) F64.zero eq_refl).
Defined.



Lemma extract_json_data_concatenates_witness :
  extract_json_data (p5_page ++ no_price_page)
  = (rows1 <- extract_json_data p5_page ;;
     rows2 <- extract_json_data no_price_page ;;
     Ok (rows1 ++ rows2)).
Proof.
  apply (proj2 extract_json_data_concatenates (p5_page ++ no_price_page)%string
               p5_page no_price_page).
  vm_compute. reflexivity.
Defined.

Lemma extract_json_data_rows_witness :
  extracted_row
    (text_row "p5.48xlarge" "US East (N. Virginia)" "$31.464 USD ($3.933 USD)"
       (VStr "P5 Instance Pricing")).
Proof.
  apply (extract_json_data_rows p5_page
           [text_row "p5.48xlarge" "US East (N. Virginia)" "$31.464 USD ($3.933 USD)"
              (VStr "P5 Instance Pricing")]).
  - vm_compute. reflexivity.
  - left. reflexivity.
Defined.

Lemma last_row_definition_wins_witness :
  vdict_get (VStr "r1") [(VStr "r1", VStr "p5en.48xlarge")] = Some (VStr "p5en.48xlarge") /\
  table_item_row [(VStr "r1", VStr "p5.48xlarge")] (VStr "P5 Instance Pricing") []
    (VDict [("idProperty", VStr "r2"); ("2", VStr "US East (Ohio)"); ("3", VStr "$1 USD")])
  = Ok [].
Proof.
  destruct last_row_definition_wins as (A & B).
  split.
  - apply (A [VDict [("id", VStr "r1"); ("label", VStr "p5.48xlarge")]]
             [("id", VStr "r1"); ("label", VStr "p5en.48xlarge")]
             [] "r1" [(VStr "r1", VStr "p5en.48xlarge")]).
    + reflexivity.
    + reflexivity.
    + intros r [].
  - apply (B [(VStr "r1", VStr "p5.48xlarge")] (VStr "P5 Instance Pricing") []
             [("idProperty", VStr "r2"); ("2", VStr "US East (Ohio)"); ("3", VStr "$1 USD")]);
      reflexivity.
Defined.

Lemma inference_by_longest_prefix_witness :
  _infer_instance_info (VStr "p5e.48xlarge") = Ok ("P5e", "H200", 8%Z) /\
  _infer_instance_info (VStr "p5.4xlarge") = Ok ("P5", "H100", 1%Z) /\
  _infer_instance_info (VStr "u-p6e-gb200x36") = Ok ("P6e", "GB200", 36%Z) /\
  _infer_instance_info (VStr "p4d.24xlarge") = Ok ("P4d", "A100", 8%Z).
Proof.
  split; [|split; [|split]].
  - destruct (inference_by_longest_prefix "p5e.48xlarge") as (_ & K & _).
    exact (K eq_refl eq_refl).
  - destruct (inference_by_longest_prefix "p5.4xlarge") as (_ & _ & K & _).
    exact (K eq_refl eq_refl).
  - destruct (inference_by_longest_prefix "u-p6e-gb200x36") as (_ & _ & _ & _ & _ & K & _).
    exact (K eq_refl).
  - destruct (inference_by_longest_prefix "p4d.24xlarge")
      as (_ & _ & _ & _ & _ & _ & _ & K & _).
    exact (K eq_refl eq_refl).
Defined.

Lemma instance_types_well_formed_witness :
  NoDup (map fst three_rows_result) /\
  pricing (snd (VStr "trn2.48xlarge",
                {| instance_family := "Trn2"; accelerator_type := "Trainium2";
                   accelerator_count := 16; pricing := [atlantis_entry] |})) <> [] /\
  _infer_instance_info (VStr "trn2.48xlarge") = Ok ("Trn2", "Trainium2", 16%Z).
Proof.
  assert (H : parse_pricing_data (html_text := plain_html) three_rows = Ok three_rows_result)
    by (vm_compute; reflexivity).
  destruct (instance_types_well_formed (html_text := plain_html) _ _ H) as (N & K).
  split; [exact N|].
  destruct (K (VStr "trn2.48xlarge")
              {| instance_family := "Trn2"; accelerator_type := "Trainium2";
                 accelerator_count := 16; pricing := [atlantis_entry] |}
              (or_intror (or_introl eq_refl))) as (_ & P & I).
  split; [exact P | exact I].
Defined.

Lemma pricing_entries_come_from_rows_witness :
  region virginia_entry <> "" /\ strip (region virginia_entry) = region virginia_entry /\
  region_code virginia_entry = "us-east-1" /\
  F64.is_nonneg (accelerator_hourly_rate_usd virginia_entry) = true.
Proof.
  assert (H : parse_pricing_data (html_text := plain_html) three_rows = Ok three_rows_result)
    by (vm_compute; reflexivity).
  destruct (pricing_entries_come_from_rows (html_text := plain_html)
              three_rows three_rows_result (VStr "p5.48xlarge")
              {| instance_family := "P5"; accelerator_type := "H100";
                 accelerator_count := 8; pricing := [ohio_entry; virginia_entry] |}
              virginia_entry H (or_introl eq_refl) (or_intror (or_introl eq_refl)))
    as (_ & A & B & C & _ & D).
  split; [exact A | split; [exact B | split; [exact C | exact D]]].
Defined.

Lemma pricing_grouped_in_row_order_witness :
  exists kes,
    entries_of (html_text := plain_html) three_rows = Ok kes /\
    (forall s, pricing_of (VStr s) three_rows_result = entries_for s kes) /\
    List.length (List.concat (map (fun ki => pricing (snd ki)) three_rows_result))
    = List.length kes.
Proof.
  apply (pricing_grouped_in_row_order (html_text := plain_html) three_rows three_rows_result).
  vm_compute. reflexivity.
Defined.


Lemma parse_pricing_data_concatenation_witness :
  exists m,
    parse_pricing_data (html_text := plain_html) (three_rows ++ three_rows) = Ok m /\
    forall s,
      pricing_of (VStr s) m
      = (pricing_of (VStr s) three_rows_result ++ pricing_of (VStr s) three_rows_result)%list.
Proof.
  apply (parse_pricing_data_concatenation (html_text := plain_html) three_rows three_rows);
    vm_compute; reflexivity.
Defined.

Lemma script_matches_round_trip_witness :
  script_matches (assembled [("<html><script>var x;</script>", "{}"); ("<p>", "[1]")] "</html>")
  = ["{}"; "[1]"] /\
  extract_json_data
    (assembled [("<html><script>var x;</script>", "{}"); ("<p>", "[1]")] "</html>")
  = for_each script_rows ["{}"; "[1]"] [].
Proof.
  apply (script_matches_round_trip
           [("<html><script>var x;</script>", "{}"); ("<p>", "[1]")] "</html>").
  - repeat constructor.
  - reflexivity.
Defined.

Lemma script_content_ends_at_first_close_witness :
  contains CLOSE_TAG p5_body = false.
Proof.
  apply (script_content_ends_at_first_close p5_page p5_body).
  vm_compute. left. reflexivity.
Defined.

Lemma scrape_pricing_counts_witness :
  (1 <= instance_count (page_data "2026-01-01T00:00:00Z")
   <= total_entries (page_data "2026-01-01T00:00:00Z"))%nat /\
  exists html rows,
    Ok p5_page = Ok html /\ extract_json_data html = Ok rows /\
    (total_entries (page_data "2026-01-01T00:00:00Z") <= List.length rows)%nat.
Proof.
  apply (scrape_pricing_counts (html_text := plain_html) (fun _ => Ok p5_page)
           "2026-01-01T00:00:00Z").
  vm_compute. reflexivity.
Defined.
